(** * The SuperPMI collector shim: [interceptor_ICJC]

    A shallow embedding of
    [src/coreclr/tools/superpmi/superpmi-shim-collector/icorjitcompiler.cpp]
    and the properties of its compile entry point: context lifetime,
    the cleanup that runs on every exit of the JIT call, what is
    recorded and persisted, and the forwarding members. *)

From stdpp Require Import gmap list strings.

Set Default Proof Using "Type".
Open Scope Z_scope.

(** ** Outcomes and the state monad the members run in

    A member either comes back with a value or is left by a fault that
    unwinds through it; both leave a state behind. *)

Inductive Outcome (A : Type) : Type :=
| Normal (a : A)
| Fault.
Arguments Normal {A} a.
Arguments Fault {A}.

Definition M (S A : Type) : Type := S -> Outcome A * S.

Definition ret {S A} (a : A) : M S A := fun s => (Normal a, s).

Definition bind {S A C} (m : M S A) (k : A -> M S C) : M S C :=
  fun s => match m s with
           | (Normal a, s1) => k a s1
           | (Fault, s1) => (Fault, s1)
           end.

Definition gets {S A} (f : S -> A) : M S A := fun s => (Normal (f s), s).
Definition modify {S} (f : S -> S) : M S unit := fun s => (Normal tt, f s).
Definition raise {S A} : M S A := fun s => (Fault, s).

Declare Scope shim_scope.
Delimit Scope shim_scope with shim.
Notation "x <- m ;; k" := (bind m (fun x => k))
  (at level 100, m at next level, right associativity) : shim_scope.
Notation "m ;;; k" := (bind m (fun _ => k))
  (at level 100, right associativity) : shim_scope.
Open Scope shim_scope.

(** Runs [m] on the second component of a pair, the first one being the
    locals of the enclosing frame. *)
Definition in_world {L W A} (m : M W A) : M (L * W) A :=
  fun s => let '(o, w) := m (snd s) in (o, (fst s, w)).

(** Modelled from the spec: the macros PAL_TRY, PAL_FINALLY and PAL_ENDTRY
    come from the platform layer, outside this file.  The spec (sections 5
    and 9) describes the construct as guaranteed cleanup: the release
    action runs on every exit of the guarded block, also on abnormal ones
    that cross the call boundary.  So the cleanup runs after the guarded
    block whatever its outcome, and a fault of the guarded block goes on
    unwinding once the cleanup is done. *)
Definition PAL_TRY_FINALLY {S A} (tryBlock : M S A) (finallyBlock : M S unit)
  : M S A :=
  fun s =>
    let '(o, s1) := tryBlock s in
    match finallyBlock s1 with
    | (Normal _, s2) => (o, s2)
    | (Fault, s2) => (Fault, s2)
    end.

(** ** Data of the JIT interface *)

(** [CorJitResult] is declared in corjit.h.  This file names two of its
    enumerators; the remaining ones are told apart by a tag. *)
Inductive CorJitResult : Type :=
| CORJIT_OK
| CORJIT_INTERNALERROR
| CORJIT_enumerator (tag : Z).

#[global] Instance CorJitResult_eq_dec : EqDecision CorJitResult.
Proof. solve_decision. Defined.

(** Handles and pointers are addresses; [nullptr] is address zero. *)
Definition nullptr : Z := 0.

Inductive CorInfoClassId : Type :=
| CLASSID_SYSTEM_OBJECT
| CLASSID_TYPED_BYREF
| CLASSID_TYPE_HANDLE
| CLASSID_FIELD_HANDLE
| CLASSID_METHOD_HANDLE
| CLASSID_STRING
| CLASSID_RUNTIME_TYPE.

#[global] Instance CorInfoClassId_eq_dec : EqDecision CorInfoClassId.
Proof. solve_decision. Defined.

(** [CORINFO_METHOD_INFO]: the method handle [ftn] is the only field this
    file reads; the rest of the descriptor travels as one value. *)
Record CORINFO_METHOD_INFO : Type := {
  ftn : Z;
  descriptor : Z
}.

#[global] Instance CORINFO_METHOD_INFO_eq_dec : EqDecision CORINFO_METHOD_INFO.
Proof. solve_decision. Defined.

(** The members of [ICorJitInfo] this file calls, and a constructor for
    every other member the JIT may call. *)
Inductive Query : Type :=
| getBuiltinClass (classId : CorInfoClassId)
| getMethodClass (method : Z)
| getClassAttribs (cls : Z)
| getClassName (cls : Z)
| isValueClass (cls : Z)
| asCorInfoType (cls : Z)
| getMethodName (method : Z)
| otherMember (slot : Z) (arg : Z).

#[global] Instance Query_eq_dec : EqDecision Query.
Proof. solve_decision. Defined.

(** The runtime's information provider ([ICorJitInfo* comp]): what it
    answers to each query. *)
Definition ICorJitInfo : Type := Query -> Z.

(** ** The capture context *)

(** Modelled from the spec: [MethodContext] and the [CompileResult] it
    owns ([mc->cr]) are declared outside this file.  Following section 3
    of the spec the context buffers every recorded fact until it is
    persisted, and carries the already-persisted flag.  Each [rec...]
    member appends one entry; the entries of [mc] and of [mc->cr], which
    [saveToFile] persists together, are kept in one chronological log. *)
Inductive Rec : Type :=
| RecProcessName (commandLine : string)
| RecCompileMethodIn (info : CORINFO_METHOD_INFO) (flags : Z) (os : Z)
| RecGlobalContext (snapshot : Z)
| RecQuery (q : Query) (answer : Z)
| RecCompileMethodOut (nativeEntry : Z) (nativeSizeOfCode : Z)
    (result : CorJitResult)
| RecAllocMemCapture
| RecAllocGCInfoCapture.

#[global] Instance Rec_eq_dec : EqDecision Rec.
Proof. solve_decision. Defined.

(** Modelled from the spec: the fields of [MethodContext], declared
    outside this file: the buffered recordings and the already-persisted
    flag, false at creation (spec, section 3). *)
Record MethodContext : Type := {
  mc_log : list Rec;
  mc_savedCollectionEarly : bool
}.

Definition new_context : MethodContext :=
  {| mc_log := []; mc_savedCollectionEarly := false |}.

Definition mc_append (r : Rec) (c : MethodContext) : MethodContext :=
  {| mc_log := mc_log c ++ [r];
     mc_savedCollectionEarly := mc_savedCollectionEarly c |}.

Definition mc_mark_saved (c : MethodContext) : MethodContext :=
  {| mc_log := mc_log c; mc_savedCollectionEarly := true |}.

(** ** What a run of the JIT's [compileMethod] does to its surroundings

    The JIT is a black box.  Seen from the shim, a call of its
    [compileMethod] is a finite sequence of calls on the [ICorJitInfo] it
    was handed and of stores to the two output slots, ended by a return
    or by a fault. *)
Inductive JitAction : Type :=
| JitQuery (q : Query)
| JitStoreEntry (p : Z)
| JitStoreSize (n : Z)
| JitSaveEarly.

Inductive JitEnd : Type :=
| JitReturn (r : CorJitResult)
| JitFault.

Record JitRun : Type := {
  jit_actions : list JitAction;
  jit_end : JitEnd
}.

(** The interface [ICorJitCompiler], implemented by the real JIT; [B] is
    the state of the object behind [original_ICorJitCompiler].  Setting
    the target OS is a plain store on the JIT's side (the spec, section
    4.1, gives it no error condition); the other members may fault. *)
Class ICorJitCompiler (B : Type) : Type := {
  jit_compileMethod :
    ICorJitInfo -> CORINFO_METHOD_INFO -> Z -> B -> JitRun * B;
  jit_setTargetOS : Z -> B -> B;
  jit_ProcessShutdownWork : Z -> M B unit;
  jit_getVersionIdentifier : M B Z;
  jit_getMaxIntrinsicSIMDVectorLength : Z -> M B Z
}.

(** ** The process as the shim sees it

    - [commandLine]: what [GetCommandLineA()] answers;
    - [g_globalContext]: the global of that name, [None] for [nullptr];
    - [currentOs], [original_ICorJitCompiler]: members of
      [interceptor_ICJC], the second being the state of the JIT object
      the pointer leads to;
    - [hFile]: the records written so far to the file behind the member
      [hFile], oldest first;
    - [heap]: the live [MethodContext] objects by address;
    - [freed]: the addresses handed to [delete], oldest first;
    - [slot_nativeEntry], [slot_nativeSizeOfCode]: the caller's two
      output slots, [*nativeEntry] and [*nativeSizeOfCode]. *)

Record World (B : Type) : Type := {
  commandLine : string;
  g_globalContext : option Z;
  currentOs : Z;
  original_ICorJitCompiler : B;
  hFile : list (list Rec);
  heap : gmap N MethodContext;
  freed : list N;
  slot_nativeEntry : Z;
  slot_nativeSizeOfCode : Z
}.
Arguments commandLine {B} _.
Arguments g_globalContext {B} _.
Arguments currentOs {B} _.
Arguments original_ICorJitCompiler {B} _.
Arguments hFile {B} _.
Arguments heap {B} _.
Arguments freed {B} _.
Arguments slot_nativeEntry {B} _.
Arguments slot_nativeSizeOfCode {B} _.

Section Setters.
Context {B : Type}.
Implicit Type w : World B.

Definition set_currentOs (os : Z) w : World B :=
  let '(Build_World _ name0 g0 _ b0 f0 h0 fr0 e0 s0) := w in
  Build_World B name0 g0 os b0 f0 h0 fr0 e0 s0.

Definition set_backend (b : B) w : World B :=
  let '(Build_World _ name0 g0 os0 _ f0 h0 fr0 e0 s0) := w in
  Build_World B name0 g0 os0 b f0 h0 fr0 e0 s0.

Definition set_hFile (f : list (list Rec)) w : World B :=
  let '(Build_World _ name0 g0 os0 b0 _ h0 fr0 e0 s0) := w in
  Build_World B name0 g0 os0 b0 f h0 fr0 e0 s0.

Definition set_heap (h : gmap N MethodContext) w : World B :=
  let '(Build_World _ name0 g0 os0 b0 f0 _ fr0 e0 s0) := w in
  Build_World B name0 g0 os0 b0 f0 h fr0 e0 s0.

Definition set_freed (l : list N) w : World B :=
  let '(Build_World _ name0 g0 os0 b0 f0 h0 _ e0 s0) := w in
  Build_World B name0 g0 os0 b0 f0 h0 l e0 s0.

Definition set_slot_nativeEntry (p : Z) w : World B :=
  let '(Build_World _ name0 g0 os0 b0 f0 h0 fr0 _ s0) := w in
  Build_World B name0 g0 os0 b0 f0 h0 fr0 p s0.

Definition set_slot_nativeSizeOfCode (n : Z) w : World B :=
  let '(Build_World _ name0 g0 os0 b0 f0 h0 fr0 e0 _) := w in
  Build_World B name0 g0 os0 b0 f0 h0 fr0 e0 n.

End Setters.

(** ** The members of the shim *)

(** Modelled from the spec: the class [interceptor_ICJI] is declared in
    icorjitinfo.h, outside this file.  Its constructor receives the
    compiler shim, the runtime's provider and the context; the spec
    (section 6) has it forward every query to the real provider and log
    query and answer into the active context. *)
Record interceptor_ICJI : Type := {
  original_ICorJitInfo : ICorJitInfo;
  m_mc : N
}.

(** The local [compileParams] of [compileMethod].  Its pointers to the
    JIT and to the two output slots name single places of the [World]
    and are not repeated here. *)
Record CompileParams : Type := {
  cp_ourICJI : interceptor_ICJI;
  cp_methodInfo : CORINFO_METHOD_INFO;
  cp_flags : Z;
  cp_result : CorJitResult
}.

Definition set_cp_result (r : CorJitResult) (p : CompileParams)
  : CompileParams :=
  {| cp_ourICJI := cp_ourICJI p; cp_methodInfo := cp_methodInfo p;
     cp_flags := cp_flags p; cp_result := r |}.

(** Runs [m] with a fresh local [l]; the local is handed back on a normal
    exit and lost with the frame on a fault. *)
Definition with_local {L W A} (l : L) (m : M (L * W) A) : M W L :=
  fun w => match m (l, w) with
           | (Normal _, (l1, w1)) => (Normal l1, w1)
           | (Fault, (_, w1)) => (Fault, w1)
           end.

Section Shim.
Context {B : Type} `{ICorJitCompiler B}.
#[local] Abbreviation W := (World B).

(** *** Memory: [new MethodContext()], [delete mc], calls through [mc] *)

Definition new_MethodContext : M W N :=
  fun w =>
    let mc := fresh (dom (heap w)) in
    (Normal mc, set_heap (<[mc := new_context]> (heap w)) w).

Definition delete_MethodContext (mc : N) : M W unit :=
  modify (fun w => set_freed (freed w ++ [mc])
                     (set_heap (delete mc (heap w)) w)).

Definition on_context (mc : N) (f : MethodContext -> MethodContext)
  : M W unit :=
  modify (fun w => set_heap (alter f mc (heap w)) w).

(** Modelled from the spec: the recording members of [MethodContext] and
    [CompileResult], defined outside this file: [mc->cr->recProcessName],
    [mc->recCompileMethod], [mc->recGlobalContext],
    [mc->cr->recCompileMethod], [mc->cr->recAllocMemCapture] and
    [mc->cr->recAllocGCInfoCapture].  Each buffers one fact in the
    context (spec, section 3). *)
Definition recProcessName (mc : N) (name : string) : M W unit :=
  on_context mc (mc_append (RecProcessName name)).
Definition recCompileMethod (mc : N) (info : CORINFO_METHOD_INFO)
    (flags os : Z) : M W unit :=
  on_context mc (mc_append (RecCompileMethodIn info flags os)).
Definition recGlobalContext (mc : N) (snapshot : Z) : M W unit :=
  on_context mc (mc_append (RecGlobalContext snapshot)).
Definition cr_recCompileMethod (mc : N) (nativeEntry nativeSizeOfCode : Z)
    (result : CorJitResult) : M W unit :=
  on_context mc
    (mc_append (RecCompileMethodOut nativeEntry nativeSizeOfCode result)).
Definition recAllocMemCapture (mc : N) : M W unit :=
  on_context mc (mc_append RecAllocMemCapture).
Definition recAllocGCInfoCapture (mc : N) : M W unit :=
  on_context mc (mc_append RecAllocGCInfoCapture).

(** Modelled from the spec: [MethodContext::saveToFile], defined outside
    this file.  [mc->saveToFile(hFile)] appends the context as one record
    to the output file (spec, section 6). *)
Definition saveToFile (mc : N) : M W unit :=
  modify (fun w => match heap w !! mc with
                   | Some c => set_hFile (hFile w ++ [mc_log c]) w
                   | None => w
                   end).

(** A call on the JIT object behind [original_ICorJitCompiler]. *)
Definition on_backend {A} (m : M B A) : M W A :=
  fun w => let '(o, b) := m (original_ICorJitCompiler w) in
           (o, set_backend b w).

(** *** [interceptor_ICJC::setTargetOS] *)
Definition setTargetOS (os : Z) : M W unit :=
  modify (set_currentOs os) ;;;
  on_backend (modify (jit_setTargetOS os)).

(** *** [interceptor_ICJC::finalizeAndCommitCollection] *)
Definition finalizeAndCommitCollection (mc : N) (result : CorJitResult)
    (nativeEntry nativeSizeOfCode : Z) : M W unit :=
  cr_recCompileMethod mc nativeEntry nativeSizeOfCode result ;;;
  (if decide (result = CORJIT_OK)
   then recAllocMemCapture mc ;;; recAllocGCInfoCapture mc
   else ret tt) ;;;
  saveToFile mc.

(** *** The wrapped provider *)

(** Modelled from the spec: a member of [interceptor_ICJI] (defined in
    icorjitinfo.cpp, outside this file) forwards the query to the real
    provider and logs query and answer into its context. *)
Definition ICJI_call (o : interceptor_ICJI) (q : Query) : M W Z :=
  let answer := original_ICorJitInfo o q in
  on_context (m_mc o) (mc_append (RecQuery q answer)) ;;;
  ret answer.

(** Modelled from the spec: [interceptor_ICJI::SavedCollectionEarly]
    (declared in icorjitinfo.h, outside this file) reads the
    already-persisted flag, which the spec keeps in the capture context;
    the object reaches it through its context pointer. *)
Definition SavedCollectionEarly (o : interceptor_ICJI) : M W bool :=
  gets (fun w => match heap w !! m_mc o with
                 | Some c => mc_savedCollectionEarly c
                 | None => false
                 end).

(** Modelled from the spec: the alternate path that persists before
    the cleanup does (its trigger lies outside this file).  By sections
    3 and 9 of the spec it checks the flag before writing, writes the
    context to the output file and sets the flag. *)
Definition ICJI_saveEarly (o : interceptor_ICJI) : M W unit :=
  early <- SavedCollectionEarly o ;;
  if early : bool then ret tt
  else saveToFile (m_mc o) ;;; on_context (m_mc o) mc_mark_saved.

(** *** The call of the JIT's [compileMethod] through [pParam] *)

Definition jit_step (o : interceptor_ICJI) (a : JitAction) : M W unit :=
  match a with
  | JitQuery q => ICJI_call o q ;;; ret tt
  | JitStoreEntry p => modify (set_slot_nativeEntry p)
  | JitStoreSize n => modify (set_slot_nativeSizeOfCode n)
  | JitSaveEarly => ICJI_saveEarly o
  end.

Fixpoint jit_steps (o : interceptor_ICJI) (l : list JitAction)
  : M W unit :=
  match l with
  | [] => ret tt
  | a :: l' => jit_step o a ;;; jit_steps o l'
  end.

Definition jit_finish (e : JitEnd) : M W CorJitResult :=
  match e with
  | JitReturn r => ret r
  | JitFault => raise
  end.

Definition origComp_compileMethod (o : interceptor_ICJI)
    (info : CORINFO_METHOD_INFO) (flags : Z) : M W CorJitResult :=
  run <- on_backend (fun b =>
           let '(run, b1) :=
             jit_compileMethod (original_ICorJitInfo o) info flags b in
           (Normal run, b1)) ;;
  jit_steps o (jit_actions run) ;;;
  jit_finish (jit_end run).

(** *** The lambda [doCompile]

    It holds [mc] and [our_ICorJitInfo] by value and [compileParams] by
    reference; the state it runs in pairs that local with the world.
    The JIT is handed [pParam->ourICJI], the object itself, while the
    cleanup asks the lambda's copy; the copy carries the same context
    pointer, and it is through that pointer that [SavedCollectionEarly]
    reads the flag. *)

Definition doCompile_try : M (CompileParams * W) unit :=
  pParam <- gets fst ;;
  r <- in_world (origComp_compileMethod (cp_ourICJI pParam)
                   (cp_methodInfo pParam) (cp_flags pParam)) ;;
  modify (fun s => (set_cp_result r (fst s), snd s)).

Definition doCompile_finally (mc : N) (our_ICorJitInfo : interceptor_ICJI)
  : M (CompileParams * W) unit :=
  early <- in_world (SavedCollectionEarly our_ICorJitInfo) ;;
  (if negb early
   then
     compileParams <- gets fst ;;
     nativeEntry <- gets (fun s => slot_nativeEntry (snd s)) ;;
     nativeSizeOfCode <- gets (fun s => slot_nativeSizeOfCode (snd s)) ;;
     in_world (finalizeAndCommitCollection mc (cp_result compileParams)
                 nativeEntry nativeSizeOfCode)
   else ret tt) ;;;
  in_world (delete_MethodContext mc).

Definition doCompile (mc : N) (our_ICorJitInfo : interceptor_ICJI)
  : M (CompileParams * W) unit :=
  PAL_TRY_FINALLY doCompile_try (doCompile_finally mc our_ICorJitInfo).

(** *** [interceptor_ICJC::compileMethod] *)
Definition compileMethod (comp : ICorJitInfo) (info : CORINFO_METHOD_INFO)
    (flags : Z) : M W CorJitResult :=
  mc <- new_MethodContext ;;
  let our_ICorJitInfo := {| original_ICorJitInfo := comp; m_mc := mc |} in
  name <- gets commandLine ;;
  recProcessName mc name ;;;
  os <- gets currentOs ;;
  recCompileMethod mc info flags os ;;;
  ICJI_call our_ICorJitInfo (getBuiltinClass CLASSID_SYSTEM_OBJECT) ;;;
  ICJI_call our_ICorJitInfo (getBuiltinClass CLASSID_TYPED_BYREF) ;;;
  ICJI_call our_ICorJitInfo (getBuiltinClass CLASSID_TYPE_HANDLE) ;;;
  ICJI_call our_ICorJitInfo (getBuiltinClass CLASSID_FIELD_HANDLE) ;;;
  ICJI_call our_ICorJitInfo (getBuiltinClass CLASSID_METHOD_HANDLE) ;;;
  ICJI_call our_ICorJitInfo (getBuiltinClass CLASSID_STRING) ;;;
  ICJI_call our_ICorJitInfo (getBuiltinClass CLASSID_RUNTIME_TYPE) ;;;
  ourClass <- ICJI_call our_ICorJitInfo (getMethodClass (ftn info)) ;;
  ICJI_call our_ICorJitInfo (getClassAttribs ourClass) ;;;
  ICJI_call our_ICorJitInfo (getClassName ourClass) ;;;
  ICJI_call our_ICorJitInfo (isValueClass ourClass) ;;;
  ICJI_call our_ICorJitInfo (asCorInfoType ourClass) ;;;
  ICJI_call our_ICorJitInfo (getMethodName (ftn info)) ;;;
  g <- gets g_globalContext ;;
  (match g with
   | Some snapshot => recGlobalContext mc snapshot
   | None => ret tt
   end) ;;;
  let compileParams :=
    {| cp_ourICJI := our_ICorJitInfo; cp_methodInfo := info;
       cp_flags := flags; cp_result := CORJIT_INTERNALERROR |} in
  modify (set_slot_nativeEntry nullptr) ;;;
  modify (set_slot_nativeSizeOfCode 0) ;;;
  compileParams1 <-
    with_local compileParams (doCompile mc our_ICorJitInfo) ;;
  ret (cp_result compileParams1).

(** *** The forwarding members *)
Definition ProcessShutdownWork (info : Z) : M W unit :=
  on_backend (jit_ProcessShutdownWork info).

Definition getVersionIdentifier : M W Z :=
  on_backend jit_getVersionIdentifier.

Definition getMaxIntrinsicSIMDVectorLength (cpuCompileFlags : Z) : M W Z :=
  on_backend (jit_getMaxIntrinsicSIMDVectorLength cpuCompileFlags).
End Shim.

(** ** Closed forms used to state what a call leaves behind *)

(** The seven built-in classes and the six questions about the method and
    its class that [compileMethod] asks before the JIT runs, with the
    provider's answers. *)
Definition eager_queries (comp : ICorJitInfo) (info : CORINFO_METHOD_INFO)
  : list Rec :=
  let ourClass := comp (getMethodClass (ftn info)) in
  map (fun q => RecQuery q (comp q))
    [ getBuiltinClass CLASSID_SYSTEM_OBJECT;
      getBuiltinClass CLASSID_TYPED_BYREF;
      getBuiltinClass CLASSID_TYPE_HANDLE;
      getBuiltinClass CLASSID_FIELD_HANDLE;
      getBuiltinClass CLASSID_METHOD_HANDLE;
      getBuiltinClass CLASSID_STRING;
      getBuiltinClass CLASSID_RUNTIME_TYPE;
      getMethodClass (ftn info);
      getClassAttribs ourClass;
      getClassName ourClass;
      isValueClass ourClass;
      asCorInfoType ourClass;
      getMethodName (ftn info) ].

(** The log of the context at the moment the JIT is called. *)
Definition seed_log (name : string) (comp : ICorJitInfo)
    (info : CORINFO_METHOD_INFO) (flags os : Z) (g : option Z) : list Rec :=
  [RecProcessName name; RecCompileMethodIn info flags os]
  ++ eager_queries comp info
  ++ match g with Some snapshot => [RecGlobalContext snapshot] | None => [] end.

(** The entries [finalizeAndCommitCollection] adds. *)
Definition success_captures (result : CorJitResult) : list Rec :=
  if decide (result = CORJIT_OK)
  then [RecAllocMemCapture; RecAllocGCInfoCapture]
  else [].

Definition finalize_entries (result : CorJitResult)
    (nativeEntry nativeSizeOfCode : Z) : list Rec :=
  RecCompileMethodOut nativeEntry nativeSizeOfCode result
  :: success_captures result.

Definition mc_extend (l : list Rec) (c : MethodContext) : MethodContext :=
  {| mc_log := mc_log c ++ l;
     mc_savedCollectionEarly := mc_savedCollectionEarly c |}.

(** The effect of the JIT's actions on the context, on the output file
    and on the two output slots. *)
Definition ctx_step (comp : ICorJitInfo) (a : JitAction) (c : MethodContext)
  : MethodContext :=
  match a with
  | JitQuery q => mc_append (RecQuery q (comp q)) c
  | JitSaveEarly =>
      if mc_savedCollectionEarly c then c else mc_mark_saved c
  | _ => c
  end.

Definition file_step (a : JitAction) (c : MethodContext)
    (f : list (list Rec)) : list (list Rec) :=
  match a with
  | JitSaveEarly => if mc_savedCollectionEarly c then f else f ++ [mc_log c]
  | _ => f
  end.

Fixpoint ctx_after (comp : ICorJitInfo) (l : list JitAction)
    (c : MethodContext) : MethodContext :=
  match l with
  | [] => c
  | a :: l' => ctx_after comp l' (ctx_step comp a c)
  end.

Fixpoint file_after (comp : ICorJitInfo) (l : list JitAction)
    (c : MethodContext) (f : list (list Rec)) : list (list Rec) :=
  match l with
  | [] => f
  | a :: l' => file_after comp l' (ctx_step comp a c) (file_step a c f)
  end.

Fixpoint entry_after (l : list JitAction) (e : Z) : Z :=
  match l with
  | [] => e
  | JitStoreEntry p :: l' => entry_after l' p
  | _ :: l' => entry_after l' e
  end.

Fixpoint size_after (l : list JitAction) (s : Z) : Z :=
  match l with
  | [] => s
  | JitStoreSize n :: l' => size_after l' n
  | _ :: l' => size_after l' s
  end.

Definition is_store (a : JitAction) : bool :=
  match a with
  | JitStoreEntry _ | JitStoreSize _ => true
  | _ => false
  end.

Definition is_save_early (a : JitAction) : bool :=
  match a with
  | JitSaveEarly => true
  | _ => false
  end.

(** The result slot when the cleanup runs: the JIT's result if it
    returned, the value the slot was initialised with if it faulted. *)
Definition result_slot (e : JitEnd) : CorJitResult :=
  match e with
  | JitReturn r => r
  | JitFault => CORJIT_INTERNALERROR
  end.

Definition outcome_of (e : JitEnd) : Outcome CorJitResult :=
  match e with
  | JitReturn r => Normal r
  | JitFault => Fault
  end.

(** The context when the JIT is called, and the output file once the
    cleanup of [doCompile] has run after the actions [l] and the end [e]
    of the JIT's run. *)
Definition seed_context (name : string) (comp : ICorJitInfo)
    (info : CORINFO_METHOD_INFO) (flags os : Z) (g : option Z)
  : MethodContext :=
  {| mc_log := seed_log name comp info flags os g;
     mc_savedCollectionEarly := false |}.

Definition file_cleaned (comp : ICorJitInfo) (l : list JitAction) (e : JitEnd)
    (c : MethodContext) (f : list (list Rec)) : list (list Rec) :=
  let c1 := ctx_after comp l c in
  let f1 := file_after comp l c f in
  if mc_savedCollectionEarly c1 then f1
  else f1 ++ [mc_log c1
              ++ finalize_entries (result_slot e)
                   (entry_after l nullptr) (size_after l 0)].

(** The log entries the wrapped provider adds for the JIT's queries. *)
Fixpoint run_queries (comp : ICorJitInfo) (l : list JitAction) : list Rec :=
  match l with
  | [] => []
  | JitQuery q :: l' => RecQuery q (comp q) :: run_queries comp l'
  | _ :: l' => run_queries comp l'
  end.

(** The record written by the first early save of a run, if there is
    one: the log as it stands at that moment. *)
Fixpoint early_record (comp : ICorJitInfo) (l : list JitAction)
    (c : MethodContext) : option (list Rec) :=
  match l with
  | [] => None
  | JitSaveEarly :: _ => Some (mc_log c)
  | a :: l' => early_record comp l' (ctx_step comp a c)
  end.

(** The record written by the cleanup's finalize step. *)
Definition final_record (comp : ICorJitInfo) (l : list JitAction)
    (e : JitEnd) (c : MethodContext) : list Rec :=
  mc_log c ++ run_queries comp l
  ++ finalize_entries (result_slot e) (entry_after l nullptr) (size_after l 0).

(** The one record a compile call persists. *)
Definition persisted_record (comp : ICorJitInfo) (l : list JitAction)
    (e : JitEnd) (c : MethodContext) : list Rec :=
  match early_record comp l c with
  | Some r => r
  | None => final_record comp l e c
  end.

(** Position of the first entry of a log that satisfies [p]. *)
Fixpoint first_index (p : Rec -> bool) (l : list Rec) : option nat :=
  match l with
  | [] => None
  | r :: l' => if p r then Some O else S <$> first_index p l'
  end.

(** In the log [l] an entry satisfying [p] comes before every entry
    satisfying [q]. *)
Definition recorded_before (p q : Rec -> bool) (l : list Rec) : Prop :=
  match first_index p l, first_index q l with
  | Some i, Some j => (i < j)%nat
  | _, _ => False
  end.

Definition is_RecGlobalContext (r : Rec) : bool :=
  match r with RecGlobalContext _ => true | _ => false end.
Definition is_RecQuery (r : Rec) : bool :=
  match r with RecQuery _ _ => true | _ => false end.
Definition is_RecCompileMethodOut (r : Rec) : bool :=
  match r with RecCompileMethodOut _ _ _ => true | _ => false end.
Definition is_success_capture (r : Rec) : bool :=
  match r with
  | RecAllocMemCapture | RecAllocGCInfoCapture => true
  | _ => false
  end.

(** A series of compile requests served one after the other by the same
    process; a fault that reaches the caller does not end the process. *)
Definition compile_request {B} `{ICorJitCompiler B}
    (req : ICorJitInfo * CORINFO_METHOD_INFO * Z) (w : World B) : World B :=
  snd (compileMethod (fst (fst req)) (snd (fst req)) (snd req) w).

Fixpoint serve {W R} (step : R -> W -> W) (reqs : list R) (w : W) : W :=
  match reqs with
  | [] => w
  | req :: reqs' => serve step reqs' (step req w)
  end.

Definition compile_requests {B} `{ICorJitCompiler B}
    (reqs : list (ICorJitInfo * CORINFO_METHOD_INFO * Z)) (w : World B)
  : World B :=
  serve compile_request reqs w.

(** ** A sample JIT, provider and process for concrete runs *)

Definition sample_run (flags : Z) : JitRun :=
  if decide (flags = 0) then
    {| jit_actions := [JitQuery (otherMember 1 10); JitStoreEntry 4096;
                       JitStoreSize 32];
       jit_end := JitReturn CORJIT_OK |}
  else if decide (flags = 1) then
    {| jit_actions := [JitQuery (otherMember 1 10)];
       jit_end := JitReturn (CORJIT_enumerator 1) |}
  else if decide (flags = 2) then
    {| jit_actions := [JitQuery (otherMember 1 10);
                       JitQuery (otherMember 2 20);
                       JitQuery (otherMember 3 30)];
       jit_end := JitFault |}
  else
    {| jit_actions := [JitQuery (otherMember 1 10); JitSaveEarly;
                       JitQuery (otherMember 2 20)];
       jit_end := JitFault |}.

(** The sample JIT keeps its target OS and counts the calls it serves. *)
#[global] Instance sample_jit : ICorJitCompiler (Z * nat) := {|
  jit_compileMethod _ _ flags b := (sample_run flags, (fst b, S (snd b)));
  jit_setTargetOS os b := (os, S (snd b));
  jit_ProcessShutdownWork _ b := (Normal tt, (fst b, S (snd b)));
  jit_getVersionIdentifier b := (Normal 2026, (fst b, S (snd b)));
  jit_getMaxIntrinsicSIMDVectorLength flags b :=
    (Normal (if decide (flags = 0) then 16 else 32), (fst b, S (snd b)))
|}.

Definition sample_provider : ICorJitInfo :=
  fun q =>
    match q with
    | getBuiltinClass CLASSID_SYSTEM_OBJECT => 100
    | getBuiltinClass CLASSID_STRING => 105
    | getBuiltinClass _ => 101
    | getMethodClass m => m + 1
    | getClassAttribs c => 2 * c
    | otherMember s a => s + a
    | _ => 0
    end.

Definition sample_info : CORINFO_METHOD_INFO :=
  {| ftn := 500; descriptor := 9 |}.

Definition sample_world : World (Z * nat) :=
  {| commandLine := "corerun app.dll";
     g_globalContext := Some 7;
     currentOs := 1;
     original_ICorJitCompiler := (0, O);
     hFile := [];
     heap := ∅;
     freed := [];
     slot_nativeEntry := 99;
     slot_nativeSizeOfCode := 77 |}.

(** A process in which the context at address 5 was already saved by the
    alternate path, and a wrapped provider bound to that context. *)
Definition saved_world : World (Z * nat) :=
  {| commandLine := "corerun app.dll";
     g_globalContext := None;
     currentOs := 1;
     original_ICorJitCompiler := (0, O);
     hFile := [[RecProcessName "corerun app.dll"]];
     heap := {[ 5%N := {| mc_log := [RecProcessName "corerun app.dll"];
                          mc_savedCollectionEarly := true |} ]};
     freed := [];
     slot_nativeEntry := 4096;
     slot_nativeSizeOfCode := 32 |}.

Definition saved_ICJI : interceptor_ICJI :=
  {| original_ICorJitInfo := sample_provider; m_mc := 5%N |}.

Definition sample_params : CompileParams :=
  {| cp_ourICJI := saved_ICJI; cp_methodInfo := sample_info; cp_flags := 0;
     cp_result := CORJIT_OK |}.

(** A process with one live context at address 5, not saved yet. *)
Definition live_world : World (Z * nat) :=
  {| commandLine := "corerun app.dll";
     g_globalContext := None;
     currentOs := 1;
     original_ICorJitCompiler := (0, O);
     hFile := [];
     heap := {[ 5%N := {| mc_log := [RecProcessName "corerun app.dll"];
                          mc_savedCollectionEarly := false |} ]};
     freed := [];
     slot_nativeEntry := 4096;
     slot_nativeSizeOfCode := 32 |}.

(** Everything of the process but the JIT object is the same in [w] and
    [w1]: target OS, output file, contexts, deletions, output slots and
    environment. *)
Definition same_but_backend {B} (w w1 : World B) : Prop :=
  commandLine w1 = commandLine w
  /\ g_globalContext w1 = g_globalContext w
  /\ currentOs w1 = currentOs w
  /\ hFile w1 = hFile w
  /\ heap w1 = heap w
  /\ freed w1 = freed w
  /\ slot_nativeEntry w1 = slot_nativeEntry w
  /\ slot_nativeSizeOfCode w1 = slot_nativeSizeOfCode w.

(** ** Series of calls on the shim *)

(** One call of a member of [interceptor_ICJC] by the runtime. *)
Inductive Call : Type :=
| CallSetTargetOS (os : Z)
| CallCompileMethod (comp : ICorJitInfo) (info : CORINFO_METHOD_INFO)
    (flags : Z)
| CallProcessShutdownWork (info : Z)
| CallGetVersionIdentifier
| CallGetMaxIntrinsicSIMDVectorLength (cpuCompileFlags : Z).

(** The process after the call, however the call ended. *)
Definition do_call {B} `{ICorJitCompiler B} (c : Call) (w : World B)
  : World B :=
  match c with
  | CallSetTargetOS os => snd (setTargetOS os w)
  | CallCompileMethod comp info flags => snd (compileMethod comp info flags w)
  | CallProcessShutdownWork info => snd (ProcessShutdownWork info w)
  | CallGetVersionIdentifier => snd (getVersionIdentifier w)
  | CallGetMaxIntrinsicSIMDVectorLength cpuCompileFlags =>
      snd (getMaxIntrinsicSIMDVectorLength cpuCompileFlags w)
  end.

Definition run_calls {B} `{ICorJitCompiler B} (cs : list Call) (w : World B)
  : World B :=
  serve do_call cs w.

Definition is_compile_call (c : Call) : bool :=
  match c with CallCompileMethod _ _ _ => true | _ => false end.

(** The target OS in force after the calls [cs], [os] being the one in
    force before. *)
Fixpoint os_after (cs : list Call) (os : Z) : Z :=
  match cs with
  | [] => os
  | CallSetTargetOS os1 :: cs' => os_after cs' os1
  | _ :: cs' => os_after cs' os
  end.

(** * Properties *)

(** ** The monad *)

Lemma bind_ret_l {S A C} (a : A) (k : A -> M S C) (s : S) :
  bind (ret a) k s = k a s.
Proof. reflexivity. Qed.

Lemma bind_modify {S C} (f : S -> S) (k : unit -> M S C) (s : S) :
  bind (modify f) k s = k tt (f s).
Proof. reflexivity. Qed.

Lemma bind_gets {S A C} (f : S -> A) (k : A -> M S C) (s : S) :
  bind (gets f) k s = k (f s) s.
Proof. reflexivity. Qed.

Lemma bind_assoc {S A C D} (m : M S A) (k : A -> M S C) (k' : C -> M S D)
    (s : S) :
  bind (bind m k) k' s = bind m (fun a => bind (k a) k') s.
Proof. unfold bind. destruct (m s) as [[a|] s1]; reflexivity. Qed.

(** ** Calls through a live context pointer *)

Section Steps.
Context {B : Type} `{ICorJitCompiler B}.
Implicit Types (h : gmap N MethodContext) (c : MethodContext).
Implicit Types (comp : ICorJitInfo) (mc : N).

Lemma on_context_live mc fn name g os (b : B) f h fr e s c :
  on_context mc fn (Build_World B name g os b f (<[mc := c]> h) fr e s)
  = (Normal tt, Build_World B name g os b f (<[mc := fn c]> h) fr e s).
Proof.
  unfold on_context, modify, set_heap; simpl.
  by rewrite alter_insert_eq.
Qed.

Lemma ICJI_call_live comp mc q name g os (b : B) f h fr e s c :
  ICJI_call {| original_ICorJitInfo := comp; m_mc := mc |} q
    (Build_World B name g os b f (<[mc := c]> h) fr e s)
  = (Normal (comp q),
     Build_World B name g os b f
       (<[mc := mc_append (RecQuery q (comp q)) c]> h) fr e s).
Proof.
  unfold ICJI_call, bind. by rewrite on_context_live.
Qed.

Lemma SavedCollectionEarly_live comp mc name g os (b : B) f h fr e s c :
  SavedCollectionEarly {| original_ICorJitInfo := comp; m_mc := mc |}
    (Build_World B name g os b f (<[mc := c]> h) fr e s)
  = (Normal (mc_savedCollectionEarly c),
     Build_World B name g os b f (<[mc := c]> h) fr e s).
Proof.
  unfold SavedCollectionEarly, gets; simpl. by rewrite lookup_insert_eq.
Qed.

Lemma saveToFile_live mc name g os (b : B) f h fr e s c :
  saveToFile mc (Build_World B name g os b f (<[mc := c]> h) fr e s)
  = (Normal tt,
     Build_World B name g os b (f ++ [mc_log c]) (<[mc := c]> h) fr e s).
Proof.
  unfold saveToFile, modify; simpl. by rewrite lookup_insert_eq.
Qed.

Lemma ICJI_saveEarly_live comp mc name g os (b : B) f h fr e s c :
  ICJI_saveEarly {| original_ICorJitInfo := comp; m_mc := mc |}
    (Build_World B name g os b f (<[mc := c]> h) fr e s)
  = (Normal tt,
     Build_World B name g os b (file_step JitSaveEarly c f)
       (<[mc := ctx_step comp JitSaveEarly c]> h) fr e s).
Proof.
  unfold ICJI_saveEarly, bind. rewrite SavedCollectionEarly_live.
  cbv beta iota. cbn [m_mc]. unfold file_step, ctx_step.
  destruct (mc_savedCollectionEarly c); [reflexivity|].
  rewrite saveToFile_live. by rewrite on_context_live.
Qed.

Lemma jit_step_live comp mc a name g os (b : B) f h fr e s c :
  jit_step {| original_ICorJitInfo := comp; m_mc := mc |} a
    (Build_World B name g os b f (<[mc := c]> h) fr e s)
  = (Normal tt,
     Build_World B name g os b (file_step a c f)
       (<[mc := ctx_step comp a c]> h) fr
       (entry_after [a] e) (size_after [a] s)).
Proof.
  destruct a; simpl.
  - unfold bind. by rewrite ICJI_call_live.
  - reflexivity.
  - reflexivity.
  - apply ICJI_saveEarly_live.
Qed.

Lemma entry_after_cons a l e :
  entry_after (a :: l) e = entry_after l (entry_after [a] e).
Proof. by destruct a. Qed.

Lemma size_after_cons a l s :
  size_after (a :: l) s = size_after l (size_after [a] s).
Proof. by destruct a. Qed.

Lemma jit_steps_live comp mc l : forall name g os (b : B) f h fr e s c,
  jit_steps {| original_ICorJitInfo := comp; m_mc := mc |} l
    (Build_World B name g os b f (<[mc := c]> h) fr e s)
  = (Normal tt,
     Build_World B name g os b (file_after comp l c f)
       (<[mc := ctx_after comp l c]> h) fr
       (entry_after l e) (size_after l s)).
Proof.
  induction l as [|a l IH]; intros; [reflexivity|].
  cbn [jit_steps]. unfold bind at 1. rewrite jit_step_live.
  rewrite IH. by rewrite <- entry_after_cons, <- size_after_cons.
Qed.

End Steps.

(** ** The cleanup and the whole call *)

Section Call.
Context {B : Type} `{ICorJitCompiler B}.
Implicit Types (h : gmap N MethodContext) (c : MethodContext).

Lemma finalizeAndCommitCollection_live mc result ne ns
    name g os (b : B) f h fr e s c :
  finalizeAndCommitCollection mc result ne ns
    (Build_World B name g os b f (<[mc := c]> h) fr e s)
  = (Normal tt,
     Build_World B name g os b
       (f ++ [mc_log c ++ finalize_entries result ne ns])
       (<[mc := mc_extend (finalize_entries result ne ns) c]> h) fr e s).
Proof.
  unfold finalizeAndCommitCollection, cr_recCompileMethod,
    recAllocMemCapture, recAllocGCInfoCapture, finalize_entries,
    success_captures.
  unfold bind at 1. rewrite on_context_live. cbv beta iota.
  destruct (decide (result = CORJIT_OK)) as [Hok|Hko].
  - unfold bind. rewrite !on_context_live. rewrite saveToFile_live.
    unfold mc_append, mc_extend; simpl.
    rewrite <- !app_assoc. reflexivity.
  - unfold bind. rewrite bind_ret_l || idtac. unfold ret.
    rewrite saveToFile_live. reflexivity.
Qed.

Lemma delete_MethodContext_live mc name g os (b : B) f h fr e s c :
  h !! mc = None ->
  delete_MethodContext mc
    (Build_World B name g os b f (<[mc := c]> h) fr e s)
  = (Normal tt, Build_World B name g os b f h (fr ++ [mc]) e s).
Proof.
  intros Hfresh. unfold delete_MethodContext, modify; simpl.
  by rewrite delete_insert_id.
Qed.

End Call.

Section Whole.
Context {B : Type} `{ICorJitCompiler B}.
Implicit Types (h : gmap N MethodContext) (c : MethodContext).

Lemma doCompile_live comp mc info flags name g os (b : B) f h fr c :
  h !! mc = None ->
  let o := {| original_ICorJitInfo := comp; m_mc := mc |} in
  let p := {| cp_ourICJI := o; cp_methodInfo := info; cp_flags := flags;
              cp_result := CORJIT_INTERNALERROR |} in
  let run := fst (jit_compileMethod comp info flags b) in
  with_local p (doCompile mc o)
    (Build_World B name g os b f (<[mc := c]> h) fr nullptr 0)
  = (match jit_end run with
     | JitReturn r => Normal (set_cp_result r p)
     | JitFault => Fault
     end,
     Build_World B name g os (snd (jit_compileMethod comp info flags b))
       (file_cleaned comp (jit_actions run) (jit_end run) c f) h (fr ++ [mc])
       (entry_after (jit_actions run) nullptr)
       (size_after (jit_actions run) 0)).
Proof.
  intros Hfresh o p run. subst run.
  unfold with_local, doCompile, PAL_TRY_FINALLY, doCompile_try.
  rewrite bind_gets. cbn [fst cp_ourICJI cp_methodInfo cp_flags p].
  unfold bind at 1. unfold in_world at 1. cbn [snd fst].
  unfold origComp_compileMethod. unfold bind at 1. unfold on_backend at 1.
  cbn [original_ICorJitCompiler original_ICorJitInfo o].
  destruct (jit_compileMethod comp info flags b) as [[l en] b1].
  cbn [fst snd jit_actions jit_end set_backend commandLine g_globalContext
       currentOs hFile heap freed slot_nativeEntry slot_nativeSizeOfCode].
  unfold bind at 1.
  unfold set_backend.
  cbn [fst snd commandLine g_globalContext
       currentOs hFile heap freed slot_nativeEntry slot_nativeSizeOfCode].
  subst o. rewrite jit_steps_live. cbv beta iota.
  set (o := {| original_ICorJitInfo := comp; m_mc := mc |}) in *.
  unfold file_cleaned.
  set (c1 := ctx_after comp l c). set (f1 := file_after comp l c f).
  assert (Hfin : forall r,
    doCompile_finally mc o
      (set_cp_result r p,
       Build_World B name g os b1 f1 (<[mc := c1]> h) fr
         (entry_after l nullptr) (size_after l 0))
    = (Normal tt,
       (set_cp_result r p,
        Build_World B name g os b1
          (if mc_savedCollectionEarly c1 then f1
           else f1 ++ [mc_log c1 ++ finalize_entries r
                         (entry_after l nullptr) (size_after l 0)])
          h (fr ++ [mc]) (entry_after l nullptr) (size_after l 0)))).
  { intros r. unfold doCompile_finally.
    unfold bind at 1. unfold in_world at 1. cbn [snd fst].
    subst o. rewrite SavedCollectionEarly_live. cbv beta iota.
    destruct (mc_savedCollectionEarly c1); cbn [negb].
    - rewrite bind_ret_l. unfold in_world. cbn [snd fst].
      by rewrite (delete_MethodContext_live mc _ _ _ _ _ h _ _ _ _ Hfresh).
    - unfold bind at 1. rewrite !bind_gets.
      cbn [snd fst cp_result set_cp_result slot_nativeEntry
           slot_nativeSizeOfCode].
      unfold in_world. cbn [snd fst].
      rewrite finalizeAndCommitCollection_live. cbv beta iota. cbn [snd fst].
      by rewrite (delete_MethodContext_live mc _ _ _ _ _ h _ _ _ _ Hfresh). }
  destruct en as [r|]; cbn [jit_finish result_slot].
  - unfold ret at 1. unfold modify. cbn [fst snd].
    by rewrite Hfin.
  - unfold raise.
    replace p with (set_cp_result CORJIT_INTERNALERROR p) at 1 by reflexivity.
    by rewrite Hfin.
Qed.

Lemma compileMethod_spec comp info flags name g os (b : B) f h fr e s :
  let run := fst (jit_compileMethod comp info flags b) in
  compileMethod comp info flags (Build_World B name g os b f h fr e s)
  = (outcome_of (jit_end run),
     Build_World B name g os (snd (jit_compileMethod comp info flags b))
       (file_cleaned comp (jit_actions run) (jit_end run)
          (seed_context name comp info flags os g) f)
       h (fr ++ [fresh (dom h)])
       (entry_after (jit_actions run) nullptr)
       (size_after (jit_actions run) 0)).
Proof.
  intros run.
  assert (Hfresh : h !! fresh (dom h) = None)
    by (apply not_elem_of_dom, is_fresh).
  unfold compileMethod.
  unfold bind at 1. unfold new_MethodContext at 1. unfold set_heap.
  cbn [heap commandLine g_globalContext currentOs
       original_ICorJitCompiler hFile freed slot_nativeEntry
       slot_nativeSizeOfCode].
  set (mc := fresh (dom h)) in *.
  unfold recProcessName, recCompileMethod, recGlobalContext.
  rewrite bind_gets. cbn [commandLine].
  unfold bind at 1. rewrite on_context_live. cbv beta iota.
  rewrite bind_gets. cbn [currentOs].
  unfold bind at 1. rewrite on_context_live. cbv beta iota.
  do 13 (unfold bind at 1; rewrite ICJI_call_live; cbv beta iota).
  rewrite bind_gets. cbn [g_globalContext].
  unfold bind at 1.
  assert (Hg :
    forall c,
      (match g with
       | Some snapshot => on_context (B:=B) mc (mc_append (RecGlobalContext snapshot))
       | None => ret tt
       end) (Build_World B name g os b f (<[mc := c]> h) fr e s)
      = (Normal tt,
         Build_World B name g os b f
           (<[mc := mc_extend
                      match g with
                      | Some snapshot => [RecGlobalContext snapshot]
                      | None => []
                      end c]> h) fr e s)).
  { intros c. destruct g as [snapshot|].
    - by rewrite on_context_live.
    - unfold ret, mc_extend. rewrite app_nil_r. by destruct c. }
  rewrite Hg; clear Hg. cbv beta iota.
  rewrite !bind_modify.
  unfold set_slot_nativeSizeOfCode, set_slot_nativeEntry.
  cbn [heap set_heap commandLine g_globalContext currentOs
       original_ICorJitCompiler hFile freed slot_nativeEntry
       slot_nativeSizeOfCode].
  unfold bind at 1.
  rewrite (doCompile_live comp mc info flags name g os b f h fr _ Hfresh).
  fold run.
  assert (Hseed :
    mc_extend
      match g with
      | Some snapshot => [RecGlobalContext snapshot]
      | None => []
      end
      (mc_append (RecQuery (getMethodName (ftn info)) (comp (getMethodName (ftn info))))
      (mc_append (RecQuery (asCorInfoType (comp (getMethodClass (ftn info))))
                   (comp (asCorInfoType (comp (getMethodClass (ftn info))))))
      (mc_append (RecQuery (isValueClass (comp (getMethodClass (ftn info))))
                   (comp (isValueClass (comp (getMethodClass (ftn info))))))
      (mc_append (RecQuery (getClassName (comp (getMethodClass (ftn info))))
                   (comp (getClassName (comp (getMethodClass (ftn info))))))
      (mc_append (RecQuery (getClassAttribs (comp (getMethodClass (ftn info))))
                   (comp (getClassAttribs (comp (getMethodClass (ftn info))))))
      (mc_append (RecQuery (getMethodClass (ftn info)) (comp (getMethodClass (ftn info))))
      (mc_append (RecQuery (getBuiltinClass CLASSID_RUNTIME_TYPE) (comp (getBuiltinClass CLASSID_RUNTIME_TYPE)))
      (mc_append (RecQuery (getBuiltinClass CLASSID_STRING) (comp (getBuiltinClass CLASSID_STRING)))
      (mc_append (RecQuery (getBuiltinClass CLASSID_METHOD_HANDLE) (comp (getBuiltinClass CLASSID_METHOD_HANDLE)))
      (mc_append (RecQuery (getBuiltinClass CLASSID_FIELD_HANDLE) (comp (getBuiltinClass CLASSID_FIELD_HANDLE)))
      (mc_append (RecQuery (getBuiltinClass CLASSID_TYPE_HANDLE) (comp (getBuiltinClass CLASSID_TYPE_HANDLE)))
      (mc_append (RecQuery (getBuiltinClass CLASSID_TYPED_BYREF) (comp (getBuiltinClass CLASSID_TYPED_BYREF)))
      (mc_append (RecQuery (getBuiltinClass CLASSID_SYSTEM_OBJECT) (comp (getBuiltinClass CLASSID_SYSTEM_OBJECT)))
      (mc_append (RecCompileMethodIn info flags os)
      (mc_append (RecProcessName name) new_context)))))))))))))))
    = seed_context name comp info flags os g).
  { unfold seed_context, seed_log, eager_queries, mc_extend, mc_append,
      new_context; cbn [mc_log mc_savedCollectionEarly map app].
    reflexivity. }
  rewrite Hseed.
  destruct (jit_end run); reflexivity.
Qed.

End Whole.

(** ** What the JIT's actions leave in the context and in the file *)

Lemma ctx_after_log comp l : forall c,
  mc_log (ctx_after comp l c) = mc_log c ++ run_queries comp l.
Proof.
  induction l as [|a l IH]; intros c; cbn [ctx_after run_queries].
  - by rewrite app_nil_r.
  - rewrite IH. destruct a; cbn [ctx_step mc_append mc_log]; try done.
    + by rewrite <- app_assoc.
    + by destruct (mc_savedCollectionEarly c).
Qed.

Lemma ctx_after_saved comp l : forall c,
  mc_savedCollectionEarly c = true ->
  mc_savedCollectionEarly (ctx_after comp l c) = true.
Proof.
  induction l as [|a l IH]; intros c Hc; cbn [ctx_after]; [done|].
  apply IH. destruct a; cbn [ctx_step mc_append mc_savedCollectionEarly];
    try done.
  by rewrite Hc.
Qed.

Lemma file_after_saved comp l : forall c f,
  mc_savedCollectionEarly c = true -> file_after comp l c f = f.
Proof.
  induction l as [|a l IH]; intros c f Hc; cbn [file_after]; [done|].
  rewrite IH.
  - destruct a; cbn [file_step]; try done. by rewrite Hc.
  - destruct a; cbn [ctx_step mc_append mc_savedCollectionEarly]; try done.
    by rewrite Hc.
Qed.

Lemma ctx_after_flag comp l : forall c,
  mc_savedCollectionEarly c = false ->
  mc_savedCollectionEarly (ctx_after comp l c)
  = bool_decide (is_Some (early_record comp l c)).
Proof.
  induction l as [|a l IH]; intros c Hc; cbn [ctx_after early_record].
  - rewrite Hc. symmetry. apply bool_decide_eq_false. by intros [x Hx].
  - destruct a; cbn [ctx_step]; try (by apply IH).
    rewrite Hc. rewrite ctx_after_saved by done.
    symmetry. by apply bool_decide_eq_true.
Qed.

Lemma file_after_early comp l : forall c f,
  mc_savedCollectionEarly c = false ->
  file_after comp l c f = f ++ option_list (early_record comp l c).
Proof.
  induction l as [|a l IH]; intros c f Hc; cbn [file_after early_record].
  - by rewrite app_nil_r.
  - destruct a; cbn [ctx_step file_step]; try (by apply IH).
    rewrite Hc. by rewrite file_after_saved.
Qed.

Lemma early_record_prefix comp l : forall c r,
  early_record comp l c = Some r ->
  exists k, r = mc_log c ++ run_queries comp (take k l)
            /\ l !! k = Some JitSaveEarly.
Proof.
  induction l as [|a l IH]; intros c r Hr; cbn [early_record] in Hr; [done|].
  destruct a;
    try (apply IH in Hr as (k & -> & Hk); exists (S k);
         cbn [take run_queries ctx_step mc_append mc_log lookup];
         rewrite <- ?app_assoc; by split).
  inversion Hr; subst. exists O. cbn [take run_queries]. rewrite app_nil_r.
  by split.
Qed.

Lemma early_record_none comp l : forall c,
  early_record comp l c = None <-> existsb is_save_early l = false.
Proof.
  induction l as [|a l IH]; intros c; cbn [early_record existsb]; [done|].
  destruct a; cbn [is_save_early orb]; try apply IH. split; discriminate.
Qed.

(** With a context that was not saved before the JIT ran, the call adds
    exactly one record to the file. *)
Lemma file_cleaned_one comp l e c f :
  mc_savedCollectionEarly c = false ->
  file_cleaned comp l e c f = f ++ [persisted_record comp l e c].
Proof.
  intros Hc. unfold file_cleaned, persisted_record, final_record.
  rewrite ctx_after_flag, file_after_early, ctx_after_log by done.
  destruct (early_record comp l c) as [r|]; cbn [option_list].
  - rewrite bool_decide_eq_true_2 by eauto. done.
  - rewrite bool_decide_eq_false_2 by (by intros [x Hx]).
    by rewrite app_nil_r, <- app_assoc.
Qed.

(** The whole call in closed form, from any state of the process. *)
Lemma compileMethod_run {B} `{ICorJitCompiler B} comp info flags
    (w : World B) :
  let jit := jit_compileMethod comp info flags (original_ICorJitCompiler w) in
  let l := jit_actions (fst jit) in
  let e := jit_end (fst jit) in
  compileMethod comp info flags w
  = (outcome_of e,
     Build_World B (commandLine w) (g_globalContext w) (currentOs w) (snd jit)
       (hFile w ++ [persisted_record comp l e
                      (seed_context (commandLine w) comp info flags
                         (currentOs w) (g_globalContext w))])
       (heap w) (freed w ++ [fresh (dom (heap w))])
       (entry_after l nullptr) (size_after l 0)).
Proof.
  destruct w as [name g os b f h fr en sz]; intros jit l e.
  cbn [commandLine g_globalContext currentOs original_ICorJitCompiler hFile
       heap freed] in *.
  rewrite compileMethod_spec. fold jit l e.
  by rewrite file_cleaned_one.
Qed.

(** ** Lifetime of the context and the one persisted record *)

(** C1: for every call of [compileMethod], whether the JIT's call returns
    or faults, exactly one record is persisted, either by the finalize
    step of the cleanup or by an early save and never by both, and the
    [MethodContext] created by the call is deleted exactly once; all of
    this has happened when control leaves [compileMethod]. *)
Theorem compileMethod_cleanup_exactly_once {B} `{ICorJitCompiler B}
    comp info flags (w : World B) :
  let jit := jit_compileMethod comp info flags (original_ICorJitCompiler w) in
  let l := jit_actions (fst jit) in
  let e := jit_end (fst jit) in
  let c0 := seed_context (commandLine w) comp info flags (currentOs w)
              (g_globalContext w) in
  let mc := fresh (dom (heap w)) in
  let w1 := snd (compileMethod comp info flags w) in
  heap w !! mc = None
  /\ fst (compileMethod comp info flags w) = outcome_of e
  /\ freed w1 = freed w ++ [mc]
  /\ heap w1 = heap w
  /\ exists r,
       hFile w1 = hFile w ++ [r]
       /\ (existsb is_save_early l = true /\ early_record comp l c0 = Some r
           \/ existsb is_save_early l = false /\ r = final_record comp l e c0).
Proof.
  intros jit l e c0 mc w1. subst w1.
  rewrite compileMethod_run. fold jit l e c0 mc.
  cbn [fst snd freed heap hFile].
  split; [apply not_elem_of_dom, is_fresh|].
  do 3 (split; [reflexivity|]).
  exists (persisted_record comp l e c0). split; [reflexivity|].
  unfold persisted_record.
  destruct (early_record comp l c0) as [r|] eqn:Hr.
  - left. split; [|reflexivity].
    destruct (existsb is_save_early l) eqn:Hex; [reflexivity|].
    apply early_record_none with (comp := comp) (c := c0) in Hex. congruence.
  - right. split; [|reflexivity]. by apply early_record_none in Hr.
Qed.

(** The three exits of the sample JIT: return, fault, fault after an
    early save. *)
Example compileMethod_cleanup_sample_runs :
  Forall (fun flags =>
            let w1 := snd (compileMethod sample_provider sample_info flags
                             sample_world) in
            length (hFile w1) = 1%nat /\ freed w1 = [0%N] /\ heap w1 = ∅)
    [0; 1; 2; 3].
Proof. repeat constructor. Qed.

(** ** The fault path *)

(** Against C2 as stated: the sample JIT faults on flags 2 after three
    queries and no store.  The cleanup has run, yet [compileMethod] yields
    no result code, so not the internal-error one either: the fault goes
    on to its caller. *)
Lemma compileMethod_fault_reaches_caller :
  jit_end (sample_run 2) = JitFault
  /\ fst (compileMethod sample_provider sample_info 2 sample_world) = Fault
  /\ fst (compileMethod sample_provider sample_info 2 sample_world)
     <> Normal CORJIT_INTERNALERROR.
Proof. split; [reflexivity|]. split; [reflexivity|]. discriminate. Qed.

(** C2, amended: when the JIT's call faults, [compileMethod] runs its
    cleanup and the fault then continues to the caller, so no result code
    is returned.  The context is deleted; unless it was saved early, the
    record persisted by the cleanup carries [CORJIT_INTERNALERROR], the
    value the result slot was initialised with, and no success-only
    capture; the output slots hold what the JIT last stored, null and 0
    if it stored nothing. *)
Theorem compileMethod_fault_unwinds {B} `{ICorJitCompiler B}
    comp info flags (w : World B)
    (Hfault : jit_end (fst (jit_compileMethod comp info flags
                              (original_ICorJitCompiler w))) = JitFault) :
  let l := jit_actions (fst (jit_compileMethod comp info flags
                               (original_ICorJitCompiler w))) in
  let c0 := seed_context (commandLine w) comp info flags (currentOs w)
              (g_globalContext w) in
  let w1 := snd (compileMethod comp info flags w) in
  fst (compileMethod comp info flags w) = Fault
  /\ heap w1 = heap w
  /\ freed w1 = freed w ++ [fresh (dom (heap w))]
  /\ (existsb is_save_early l = false ->
      hFile w1
      = hFile w ++ [mc_log c0 ++ run_queries comp l
                    ++ [RecCompileMethodOut (slot_nativeEntry w1)
                          (slot_nativeSizeOfCode w1) CORJIT_INTERNALERROR]])
  /\ slot_nativeEntry w1 = entry_after l nullptr
  /\ slot_nativeSizeOfCode w1 = size_after l 0.
Proof.
  intros l c0 w1. subst w1. rewrite compileMethod_run.
  fold l c0. rewrite Hfault.
  cbn [fst snd freed heap hFile outcome_of slot_nativeEntry
       slot_nativeSizeOfCode].
  do 3 (split; [reflexivity|]).
  split; [|by split].
  intros Hno. apply (early_record_none comp l c0) in Hno.
  unfold persisted_record. by rewrite Hno.
Qed.

Lemma compileMethod_fault_unwinds_witness :
  jit_end (fst (jit_compileMethod sample_provider sample_info 2
                  (original_ICorJitCompiler sample_world))) = JitFault
  /\ fst (compileMethod sample_provider sample_info 2 sample_world) = Fault
  /\ slot_nativeEntry
       (snd (compileMethod sample_provider sample_info 2 sample_world))
     = nullptr.
Proof.
  split; [reflexivity|].
  pose proof (compileMethod_fault_unwinds sample_provider sample_info 2
                sample_world eq_refl) as (Hout & _ & _ & _ & Hentry & _).
  split; [exact Hout | exact Hentry].
Defined.

(** ** The cleanup of [doCompile] *)

Lemma doCompile_finally_early {B} `{ICorJitCompiler B} mc our p
    (w : World B) :
  fst (SavedCollectionEarly our w) = Normal true ->
  doCompile_finally mc our (p, w)
  = (Normal tt, (p, snd (delete_MethodContext mc w))).
Proof.
  unfold SavedCollectionEarly, gets. cbn [fst]. intros Hflag.
  unfold doCompile_finally, bind, in_world, SavedCollectionEarly, gets.
  cbn [fst snd]. injection Hflag as ->. reflexivity.
Qed.

Lemma compileMethod_file_length {B} `{ICorJitCompiler B} comp info flags
    (w : World B) :
  length (hFile (snd (compileMethod comp info flags w)))
  = S (length (hFile w)).
Proof.
  rewrite compileMethod_run. cbn [snd hFile].
  rewrite length_app. cbn [length]. lia.
Qed.

(** C3: the cleanup persists at most once per compile call.  When
    [SavedCollectionEarly] answers true as the cleanup starts, the
    cleanup writes nothing to the output file and still deletes the
    context; and over a whole call of [compileMethod] the output file
    never grows by more than one record. *)
Theorem persist_at_most_once {B} `{ICorJitCompiler B} mc our p
    (w : World B)
    (Hearly : fst (SavedCollectionEarly our w) = Normal true) :
  let w1 := snd (snd (doCompile_finally mc our (p, w))) in
  fst (doCompile_finally mc our (p, w)) = Normal tt
  /\ hFile w1 = hFile w
  /\ heap w1 = delete mc (heap w)
  /\ freed w1 = freed w ++ [mc]
  /\ forall comp info flags (w0 : World B),
       (length (hFile (snd (compileMethod comp info flags w0)))
        <= S (length (hFile w0)))%nat.
Proof.
  intros w1. subst w1. rewrite doCompile_finally_early by done.
  cbn [fst snd]. unfold delete_MethodContext, modify. cbn [snd].
  do 4 (split; [by destruct w|]).
  intros. by rewrite compileMethod_file_length.
Qed.

Lemma persist_at_most_once_witness :
  fst (SavedCollectionEarly saved_ICJI saved_world) = Normal true
  /\ hFile (snd (snd (doCompile_finally 5%N saved_ICJI
                        (sample_params, saved_world))))
     = [[RecProcessName "corerun app.dll"]]
  /\ heap (snd (snd (doCompile_finally 5%N saved_ICJI
                       (sample_params, saved_world)))) !! 5%N = None.
Proof.
  split; [reflexivity|].
  pose proof (persist_at_most_once 5%N saved_ICJI sample_params saved_world
                eq_refl) as (_ & Hfile & Hheap & _).
  split; [exact Hfile|]. rewrite Hheap. apply lookup_delete_eq.
Defined.



(** The sample JIT saves early on flags 3 and then faults: the one record
    in the file is the early one, without result or captures. *)
Example early_save_sample_run :
  hFile (snd (compileMethod sample_provider sample_info 3 sample_world))
  = [seed_log "corerun app.dll" sample_provider sample_info 3 1 (Some 7)
     ++ [RecQuery (otherMember 1 10) 11]].
Proof. reflexivity. Qed.

(** ** [finalizeAndCommitCollection] *)

Lemma finalizeAndCommitCollection_at {B} `{ICorJitCompiler B} mc result
    ne ns (w : World B) c :
  heap w !! mc = Some c ->
  finalizeAndCommitCollection mc result ne ns w
  = (Normal tt,
     set_hFile (hFile w ++ [mc_log c ++ finalize_entries result ne ns])
       (set_heap (<[mc := mc_extend (finalize_entries result ne ns) c]>
                    (heap w)) w)).
Proof.
  intros Hlive. destruct w as [name g os b f h fr e s]. cbn [heap] in Hlive.
  rewrite <- (insert_id h mc c Hlive) at 1.
  rewrite finalizeAndCommitCollection_live.
  reflexivity.
Qed.

(** C4: [finalizeAndCommitCollection] records result, entry and size
    into the context, takes the two success-only captures exactly when
    the result is [CORJIT_OK], and then writes the context to the output
    file; on any other result the record is still written, without a
    success-only capture added. *)
Theorem finalizeAndCommitCollection_records_then_persists
    {B} `{ICorJitCompiler B} mc result nativeEntry nativeSizeOfCode
    (w : World B) c
    (Hlive : heap w !! mc = Some c) :
  let w1 := snd (finalizeAndCommitCollection mc result nativeEntry
                   nativeSizeOfCode w) in
  exists added,
    fst (finalizeAndCommitCollection mc result nativeEntry
           nativeSizeOfCode w) = Normal tt
    /\ heap w1 = <[mc := mc_extend added c]> (heap w)
    /\ hFile w1 = hFile w ++ [mc_log c ++ added]
    /\ (result = CORJIT_OK ->
        added = [RecCompileMethodOut nativeEntry nativeSizeOfCode result;
                 RecAllocMemCapture; RecAllocGCInfoCapture])
    /\ (result <> CORJIT_OK ->
        added = [RecCompileMethodOut nativeEntry nativeSizeOfCode result])
    /\ (existsb is_success_capture added = true <-> result = CORJIT_OK)
    /\ (existsb is_success_capture (mc_log c) = false ->
        (existsb is_success_capture (mc_log c ++ added) = true
         <-> result = CORJIT_OK)).
Proof.
  intros w1. subst w1. exists (finalize_entries result nativeEntry
                                 nativeSizeOfCode).
  rewrite (finalizeAndCommitCollection_at _ _ _ _ _ _ Hlive).
  cbn [fst snd]. split; [reflexivity|].
  split; [by destruct w|]. split; [by destruct w|].
  unfold finalize_entries, success_captures.
  destruct (decide (result = CORJIT_OK)) as [Hok|Hko].
  - split; [done|]. split; [done|]. split; [done|].
    intros _. rewrite existsb_app. cbn. by rewrite orb_true_r.
  - split; [done|]. split; [done|]. cbn [existsb is_success_capture orb].
    split; [split; [discriminate|done]|].
    intros Hnone. rewrite existsb_app, Hnone.
    cbn. split; [discriminate|done].
Qed.

Lemma finalizeAndCommitCollection_records_then_persists_witness :
  heap live_world !! 5%N
  = Some {| mc_log := [RecProcessName "corerun app.dll"];
            mc_savedCollectionEarly := false |}
  /\ hFile (snd (finalizeAndCommitCollection 5%N CORJIT_OK 4096 32
                   live_world))
     = [[RecProcessName "corerun app.dll";
         RecCompileMethodOut 4096 32 CORJIT_OK;
         RecAllocMemCapture; RecAllocGCInfoCapture]].
Proof.
  split; [reflexivity|].
  destruct (finalizeAndCommitCollection_records_then_persists 5%N CORJIT_OK
              4096 32 live_world _ eq_refl)
    as (added & _ & _ & Hfile & Hok & _).
  rewrite Hfile, (Hok eq_refl). reflexivity.
Defined.

(** A failure code: the record is written, with the result and without
    captures. *)
Example finalizeAndCommitCollection_failure :
  hFile (snd (finalizeAndCommitCollection 5%N (CORJIT_enumerator 1) 0 0
                live_world))
  = [[RecProcessName "corerun app.dll";
      RecCompileMethodOut 0 0 (CORJIT_enumerator 1)]].
Proof. reflexivity. Qed.

(** ** Result returned and result recorded *)

(** Against C5 as stated: on the fault path the persisted record shows
    the internal-error code, but no result code is returned to pair it
    with: the call is left by the fault. *)
Lemma fault_path_returns_no_result :
  let run := compileMethod sample_provider sample_info 2 sample_world in
  jit_end (sample_run 2) = JitFault
  /\ (exists log,
        hFile (snd run)
        = [log ++ [RecCompileMethodOut 0 0 CORJIT_INTERNALERROR]])
  /\ ~ exists r, fst run = Normal r.
Proof.
  split; [reflexivity|]. split.
  - exists (seed_log "corerun app.dll" sample_provider sample_info 2 1
              (Some 7)
            ++ [RecQuery (otherMember 1 10) 11;
                RecQuery (otherMember 2 20) 22;
                RecQuery (otherMember 3 30) 33]).
    reflexivity.
  - intros [r Hr]. discriminate Hr.
Qed.

(** C5, amended: for a compile call whose context was not saved early,
    when the JIT returns [r] the call returns [r] and the persisted
    record carries [r] with the entry and the size left in the output
    slots, which is what the caller receives; when the JIT returns
    [CORJIT_OK] the record also holds the two success-only captures.
    When the JIT faults the record carries [CORJIT_INTERNALERROR] and no
    result is returned. *)
Theorem persisted_result_is_returned_result {B} `{ICorJitCompiler B}
    comp info flags (w : World B)
    (Hnot_early :
       existsb is_save_early
         (jit_actions (fst (jit_compileMethod comp info flags
                              (original_ICorJitCompiler w)))) = false) :
  let jit := jit_compileMethod comp info flags (original_ICorJitCompiler w) in
  let l := jit_actions (fst jit) in
  let c0 := seed_context (commandLine w) comp info flags (currentOs w)
              (g_globalContext w) in
  let out := compileMethod comp info flags w in
  let E := slot_nativeEntry (snd out) in
  let S := slot_nativeSizeOfCode (snd out) in
  match jit_end (fst jit) with
  | JitReturn r =>
      fst out = Normal r
      /\ hFile (snd out)
         = hFile w ++ [mc_log c0 ++ run_queries comp l
                       ++ RecCompileMethodOut E S r
                          :: (if decide (r = CORJIT_OK)
                              then [RecAllocMemCapture; RecAllocGCInfoCapture]
                              else [])]
  | JitFault =>
      fst out = Fault
      /\ hFile (snd out)
         = hFile w ++ [mc_log c0 ++ run_queries comp l
                       ++ [RecCompileMethodOut E S CORJIT_INTERNALERROR]]
  end.
Proof.
  intros jit l c0 out E S. subst E S out.
  rewrite compileMethod_run. fold jit l c0.
  apply (early_record_none comp l c0) in Hnot_early.
  unfold persisted_record. rewrite Hnot_early.
  cbn [fst snd hFile slot_nativeEntry slot_nativeSizeOfCode].
  destruct (jit_end jit.1) as [r|]; split; reflexivity.
Qed.

(** Scenario A on the sample JIT: success with entry 4096 and size 32. *)
Lemma persisted_result_is_returned_result_witness :
  existsb is_save_early
    (jit_actions (fst (jit_compileMethod sample_provider sample_info 0
                         (original_ICorJitCompiler sample_world)))) = false
  /\ fst (compileMethod sample_provider sample_info 0 sample_world)
     = Normal CORJIT_OK
  /\ hFile (snd (compileMethod sample_provider sample_info 0 sample_world))
     = [seed_log "corerun app.dll" sample_provider sample_info 0 1 (Some 7)
        ++ [RecQuery (otherMember 1 10) 11;
            RecCompileMethodOut 4096 32 CORJIT_OK;
            RecAllocMemCapture; RecAllocGCInfoCapture]].
Proof.
  split; [reflexivity|].
  pose proof (persisted_result_is_returned_result sample_provider
                sample_info 0 sample_world eq_refl) as Hrun.
  cbv zeta in Hrun.
  change (jit_end (fst (jit_compileMethod sample_provider sample_info 0
                          (original_ICorJitCompiler sample_world))))
    with (JitReturn CORJIT_OK) in Hrun.
  destruct Hrun as [Hret Hfile]. split; [exact Hret|].
  rewrite Hfile. reflexivity.
Defined.

(** ** The output slots *)

Lemma entry_after_no_store l : forall e,
  existsb is_store l = false -> entry_after l e = e.
Proof.
  induction l as [|a l IH]; intros e Hl; [reflexivity|].
  destruct a; cbn [existsb is_store orb] in Hl; try discriminate;
    cbn [entry_after]; by apply IH.
Qed.

Lemma size_after_no_store l : forall s,
  existsb is_store l = false -> size_after l s = s.
Proof.
  induction l as [|a l IH]; intros s Hl; [reflexivity|].
  destruct a; cbn [existsb is_store orb] in Hl; try discriminate;
    cbn [size_after]; by apply IH.
Qed.

(** C6: [compileMethod] sets the two output slots to null and 0 before
    it calls the JIT, so whatever they held on entry is gone and only a
    store of the JIT changes them: after the call each slot holds the
    JIT's last store to it, and after a call in which the JIT stored
    nothing, also one it left by a fault, the slots hold the null entry
    and size 0. *)
Theorem output_slots_empty_unless_stored {B} `{ICorJitCompiler B}
    comp info flags (w : World B) :
  let l := jit_actions (fst (jit_compileMethod comp info flags
                               (original_ICorJitCompiler w))) in
  let w1 := snd (compileMethod comp info flags w) in
  slot_nativeEntry w1 = entry_after l nullptr
  /\ slot_nativeSizeOfCode w1 = size_after l 0
  /\ (existsb is_store l = false ->
      slot_nativeEntry w1 = nullptr /\ slot_nativeSizeOfCode w1 = 0).
Proof.
  intros l w1. subst w1. rewrite compileMethod_run. fold l.
  cbn [snd slot_nativeEntry slot_nativeSizeOfCode].
  do 2 (split; [reflexivity|]).
  intros Hno_store.
  by rewrite entry_after_no_store, size_after_no_store.
Qed.

(** The sample JIT faults on flags 2 without a store; the slots held 99
    and 77 on entry. *)
Lemma output_slots_empty_unless_stored_witness :
  existsb is_store
    (jit_actions (fst (jit_compileMethod sample_provider sample_info 2
                         (original_ICorJitCompiler sample_world)))) = false
  /\ slot_nativeEntry sample_world = 99
  /\ slot_nativeSizeOfCode sample_world = 77
  /\ fst (compileMethod sample_provider sample_info 2 sample_world) = Fault
  /\ slot_nativeEntry
       (snd (compileMethod sample_provider sample_info 2 sample_world)) = 0
  /\ slot_nativeSizeOfCode
       (snd (compileMethod sample_provider sample_info 2 sample_world)) = 0.
Proof.
  split; [reflexivity|]. do 3 (split; [reflexivity|]).
  exact (proj2 (proj2 (output_slots_empty_unless_stored sample_provider
                         sample_info 2 sample_world)) eq_refl).
Defined.

(** ** Order of the recordings *)

(** Against C7 as stated: with a global context present, the sample run
    persists a record in which the snapshot comes after the eager
    queries: the first query is entry 2, the snapshot entry 15. *)
Lemma global_context_recorded_after_eager_queries :
  g_globalContext sample_world = Some 7
  /\ exists r,
       hFile (snd (compileMethod sample_provider sample_info 0 sample_world))
       = [r]
       /\ first_index is_RecQuery r = Some 2%nat
       /\ first_index is_RecGlobalContext r = Some 15%nat
       /\ ~ recorded_before is_RecGlobalContext is_RecQuery r.
Proof.
  split; [reflexivity|].
  exists (seed_log "corerun app.dll" sample_provider sample_info 0 1 (Some 7)
          ++ [RecQuery (otherMember 1 10) 11;
              RecCompileMethodOut 4096 32 CORJIT_OK;
              RecAllocMemCapture; RecAllocGCInfoCapture]).
  split; [vm_compute; reflexivity|].
  split; [vm_compute; reflexivity|]. split; [vm_compute; reflexivity|].
  unfold recorded_before. vm_compute. lia.
Qed.

Lemma run_queries_no_global comp l :
  filter (fun x => is_RecGlobalContext x = true) (run_queries comp l) = [].
Proof.
  induction l as [|a l IH]; [reflexivity|].
  destruct a; cbn [run_queries]; [|exact IH..].
  rewrite filter_cons_False; [exact IH|]. cbn [is_RecGlobalContext].
  discriminate.
Qed.

(** C7, amended: [compileMethod] records the process name, then the
    method descriptor with flags and target OS, then issues the thirteen
    eager queries through the wrapped provider, and only then records
    the global context, if there is one and once; the JIT is called
    after all of that, so every record the call persists starts with
    these entries in this order, followed by what the JIT's run and the
    cleanup added. *)
Theorem recordings_before_the_jit_call {B} `{ICorJitCompiler B}
    comp info flags (w : World B) :
  let jit := jit_compileMethod comp info flags (original_ICorJitCompiler w) in
  let l := jit_actions (fst jit) in
  let ourClass := comp (getMethodClass (ftn info)) in
  let seed :=
    [RecProcessName (commandLine w);
     RecCompileMethodIn info flags (currentOs w);
     RecQuery (getBuiltinClass CLASSID_SYSTEM_OBJECT)
       (comp (getBuiltinClass CLASSID_SYSTEM_OBJECT));
     RecQuery (getBuiltinClass CLASSID_TYPED_BYREF)
       (comp (getBuiltinClass CLASSID_TYPED_BYREF));
     RecQuery (getBuiltinClass CLASSID_TYPE_HANDLE)
       (comp (getBuiltinClass CLASSID_TYPE_HANDLE));
     RecQuery (getBuiltinClass CLASSID_FIELD_HANDLE)
       (comp (getBuiltinClass CLASSID_FIELD_HANDLE));
     RecQuery (getBuiltinClass CLASSID_METHOD_HANDLE)
       (comp (getBuiltinClass CLASSID_METHOD_HANDLE));
     RecQuery (getBuiltinClass CLASSID_STRING)
       (comp (getBuiltinClass CLASSID_STRING));
     RecQuery (getBuiltinClass CLASSID_RUNTIME_TYPE)
       (comp (getBuiltinClass CLASSID_RUNTIME_TYPE));
     RecQuery (getMethodClass (ftn info)) ourClass;
     RecQuery (getClassAttribs ourClass) (comp (getClassAttribs ourClass));
     RecQuery (getClassName ourClass) (comp (getClassName ourClass));
     RecQuery (isValueClass ourClass) (comp (isValueClass ourClass));
     RecQuery (asCorInfoType ourClass) (comp (asCorInfoType ourClass));
     RecQuery (getMethodName (ftn info)) (comp (getMethodName (ftn info)))]
    ++ match g_globalContext w with
       | Some snapshot => [RecGlobalContext snapshot]
       | None => []
       end in
  exists rest,
    hFile (snd (compileMethod comp info flags w)) = hFile w ++ [seed ++ rest]
    /\ ((exists k, rest = run_queries comp (take k l))
        \/ rest = run_queries comp l
                  ++ finalize_entries (result_slot (jit_end (fst jit)))
                       (entry_after l nullptr) (size_after l 0))
    /\ length (filter (fun x => is_RecGlobalContext x = true) (seed ++ rest))
       = match g_globalContext w with Some _ => 1%nat | None => O end
    /\ (is_Some (g_globalContext w) ->
        recorded_before is_RecQuery is_RecGlobalContext (seed ++ rest)).
Proof.
  intros jit l ourClass seed.
  rewrite compileMethod_run. fold jit l. cbn [snd hFile].
  set (c0 := seed_context _ _ _ _ _ _).
  assert (Hseed : mc_log c0 = seed) by reflexivity.
  assert (Hcount : forall rest,
    filter (fun x => is_RecGlobalContext x = true) rest = [] ->
    length (filter (fun x => is_RecGlobalContext x = true) (seed ++ rest))
    = match g_globalContext w with Some _ => 1%nat | None => O end).
  { intros rest Hrest. rewrite filter_app, Hrest, app_nil_r.
    subst seed. rewrite filter_app.
    by destruct (g_globalContext w). }
  assert (Horder : forall rest,
    is_Some (g_globalContext w) ->
    recorded_before is_RecQuery is_RecGlobalContext (seed ++ rest)).
  { intros rest [snapshot Hg]. subst seed. rewrite Hg.
    unfold recorded_before. cbn. lia. }
  unfold persisted_record, final_record.
  destruct (early_record comp l c0) as [r|] eqn:Hr.
  - apply early_record_prefix in Hr as (k & -> & _). rewrite Hseed.
    exists (run_queries comp (take k l)).
    split; [reflexivity|]. split; [left; by exists k|].
    split; [|apply Horder].
    apply Hcount, run_queries_no_global.
  - rewrite Hseed. eexists. split; [reflexivity|]. split; [by right|].
    split; [|apply Horder].
    apply Hcount. rewrite filter_app, run_queries_no_global.
    unfold finalize_entries, success_captures.
    by destruct (decide _).
Qed.

(** ** The forwarding members *)

Lemma on_backend_frame {B A} (m : M B A) (w : World B) :
  fst (on_backend m w) = fst (m (original_ICorJitCompiler w))
  /\ original_ICorJitCompiler (snd (on_backend m w))
     = snd (m (original_ICorJitCompiler w))
  /\ same_but_backend w (snd (on_backend m w)).
Proof.
  unfold on_backend. destruct (m (original_ICorJitCompiler w)) as [o b].
  cbn [fst snd]. destruct w. repeat split.
Qed.

(** C8: [ProcessShutdownWork], [getVersionIdentifier] and
    [getMaxIntrinsicSIMDVectorLength] give the JIT's own outcome and leave
    the JIT in the state the direct call leaves it in; no context is
    created, touched or deleted and nothing is recorded or written. *)
Theorem forwarding_members_transparent {B} `{ICorJitCompiler B}
    (info cpuCompileFlags : Z) (w : World B) :
  let b := original_ICorJitCompiler w in
  (fst (ProcessShutdownWork info w) = fst (jit_ProcessShutdownWork info b)
   /\ original_ICorJitCompiler (snd (ProcessShutdownWork info w))
      = snd (jit_ProcessShutdownWork info b)
   /\ same_but_backend w (snd (ProcessShutdownWork info w)))
  /\ (fst (getVersionIdentifier w) = fst (jit_getVersionIdentifier b)
      /\ original_ICorJitCompiler (snd (getVersionIdentifier w))
         = snd (jit_getVersionIdentifier b)
      /\ same_but_backend w (snd (getVersionIdentifier w)))
  /\ (fst (getMaxIntrinsicSIMDVectorLength cpuCompileFlags w)
      = fst (jit_getMaxIntrinsicSIMDVectorLength cpuCompileFlags b)
      /\ original_ICorJitCompiler
           (snd (getMaxIntrinsicSIMDVectorLength cpuCompileFlags w))
         = snd (jit_getMaxIntrinsicSIMDVectorLength cpuCompileFlags b)
      /\ same_but_backend w
           (snd (getMaxIntrinsicSIMDVectorLength cpuCompileFlags w))).
Proof.
  intros b. subst b.
  unfold ProcessShutdownWork, getVersionIdentifier,
    getMaxIntrinsicSIMDVectorLength.
  split; [|split]; apply on_backend_frame.
Qed.

Example forwarding_members_sample :
  fst (getVersionIdentifier sample_world) = Normal 2026
  /\ fst (getMaxIntrinsicSIMDVectorLength 4 sample_world) = Normal 32
  /\ hFile (snd (ProcessShutdownWork 0 sample_world)) = []
  /\ heap (snd (ProcessShutdownWork 0 sample_world)) = ∅.
Proof. repeat split. Qed.

(** ** The target OS *)

Lemma serve_cons {W R} (step : R -> W -> W) req reqs (w : W) :
  serve step (req :: reqs) w = serve step reqs (step req w).
Proof. reflexivity. Qed.

Lemma compile_request_os_and_record {B} `{ICorJitCompiler B} req
    (w : World B) :
  currentOs (compile_request req w) = currentOs w
  /\ exists r,
       hFile (compile_request req w) = hFile w ++ [r]
       /\ r !! 1%nat
          = Some (RecCompileMethodIn (snd (fst req)) (snd req) (currentOs w)).
Proof.
  unfold compile_request.
  rewrite compileMethod_run. cbn [snd currentOs hFile].
  split; [reflexivity|]. eexists. split; [reflexivity|].
  unfold persisted_record, final_record.
  destruct (early_record _ _ _) as [r|] eqn:Hr.
  - apply early_record_prefix in Hr as (k & -> & _).
    unfold seed_context, seed_log. cbn [mc_log app]. reflexivity.
  - unfold seed_context, seed_log. cbn [mc_log app]. reflexivity.
Qed.

Lemma compile_requests_records {B} `{ICorJitCompiler B} reqs :
  forall w : World B,
    currentOs (compile_requests reqs w) = currentOs w
    /\ exists records,
         hFile (compile_requests reqs w) = hFile w ++ records
         /\ Forall2 (fun req rec =>
                       rec !! 1%nat
                       = Some (RecCompileMethodIn (snd (fst req)) (snd req)
                                 (currentOs w)))
              reqs records.
Proof.
  unfold compile_requests.
  induction reqs as [|req reqs IH]; intros w.
  - split; [reflexivity|]. exists []. rewrite app_nil_r. by split.
  - rewrite serve_cons.
    destruct (compile_request_os_and_record req w)
      as (Hos1 & r & Hfile1 & Hr).
    destruct (IH (compile_request req w)) as (Hos & records & Hfile & Hall).
    rewrite Hos1 in Hos, Hall. rewrite Hfile1 in Hfile.
    split; [exact Hos|].
    exists (r :: records). split.
    + rewrite Hfile, <- app_assoc. reflexivity.
    + constructor; [exact Hr|exact Hall].
Qed.

(** C9: [setTargetOS] stores the value in [currentOs] and hands the same
    value to the JIT's [setTargetOS]; it cannot fail and changes nothing
    else.  Every compile call served afterwards records that value as the
    target OS of its compile inputs. *)
Theorem setTargetOS_stored_forwarded_recorded {B} `{ICorJitCompiler B}
    (os : Z) (w : World B)
    (reqs : list (ICorJitInfo * CORINFO_METHOD_INFO * Z)) :
  let w1 := snd (setTargetOS os w) in
  fst (setTargetOS os w) = Normal tt
  /\ currentOs w1 = os
  /\ original_ICorJitCompiler w1
     = jit_setTargetOS os (original_ICorJitCompiler w)
  /\ (hFile w1 = hFile w /\ heap w1 = heap w /\ freed w1 = freed w)
  /\ currentOs (compile_requests reqs w1) = os
  /\ exists records,
       hFile (compile_requests reqs w1) = hFile w ++ records
       /\ Forall2 (fun req rec =>
                     rec !! 1%nat
                     = Some (RecCompileMethodIn (snd (fst req)) (snd req) os))
            reqs records.
Proof.
  intros w1.
  assert (Hset : setTargetOS os w
                 = (Normal tt,
                    set_backend
                      (jit_setTargetOS os (original_ICorJitCompiler w))
                      (set_currentOs os w))) by (by destruct w).
  subst w1. rewrite Hset. cbn [fst snd]. clear Hset.
  set (w2 := set_backend (jit_setTargetOS os (original_ICorJitCompiler w))
               (set_currentOs os w)).
  assert (Hw2 : currentOs w2 = os
                /\ original_ICorJitCompiler w2
                   = jit_setTargetOS os (original_ICorJitCompiler w)
                /\ hFile w2 = hFile w /\ heap w2 = heap w
                /\ freed w2 = freed w)
    by (by destruct w).
  destruct Hw2 as (Hw2os & Hw2b & Hw2file & Hw2heap & Hw2freed).
  destruct (compile_requests_records reqs w2)
    as (Hos & records & Hfile & Hall).
  rewrite Hw2os in Hos, Hall. rewrite Hw2file in Hfile.
  split; [reflexivity|]. split; [exact Hw2os|]. split; [exact Hw2b|].
  split; [by repeat split|]. split; [exact Hos|].
  exists records. by split.
Qed.

(** Two compile calls after the target OS was set to 3: one returns, one
    faults; both records carry OS 3. *)
Example setTargetOS_sample :
  map (fun rec => rec !! 1%nat)
    (hFile (compile_requests
              [(sample_provider, sample_info, 0);
               (sample_provider, sample_info, 2)]
              (snd (setTargetOS 3 sample_world))))
  = [Some (RecCompileMethodIn sample_info 0 3);
     Some (RecCompileMethodIn sample_info 2 3)].
Proof. reflexivity. Qed.

(** * Further properties of the members *)

(** ** A series of compile calls *)

Lemma compile_request_frame {B} `{ICorJitCompiler B} req (w : World B) :
  heap (compile_request req w) = heap w
  /\ (exists r, hFile (compile_request req w) = hFile w ++ [r])
  /\ freed (compile_request req w) = freed w ++ [fresh (dom (heap w))].
Proof.
  unfold compile_request. rewrite compileMethod_run.
  cbn [snd heap hFile freed]. split; [reflexivity|].
  split; [by eexists|reflexivity].
Qed.

(** X1: however many compile requests a process serves, and however each
    JIT run ends, no context is left behind and none that was live
    before is deleted: the heap is the one the series started from, the
    output file gained exactly one record per request after the records
    it held, and exactly one address per request was deleted, each of
    them free in the starting heap. *)
Theorem compile_requests_leave_no_context {B} `{ICorJitCompiler B}
    (reqs : list (ICorJitInfo * CORINFO_METHOD_INFO * Z)) (w : World B) :
  heap (compile_requests reqs w) = heap w
  /\ (exists records,
        hFile (compile_requests reqs w) = hFile w ++ records
        /\ length records = length reqs)
  /\ (exists addrs,
        freed (compile_requests reqs w) = freed w ++ addrs
        /\ length addrs = length reqs
        /\ Forall (fun a => heap w !! a = None) addrs).
Proof.
  unfold compile_requests. revert w.
  induction reqs as [|req reqs IH]; intros w.
  - split; [reflexivity|]. split.
    + exists []. by rewrite app_nil_r.
    + exists []. rewrite app_nil_r. by repeat split.
  - rewrite serve_cons.
    destruct (compile_request_frame req w) as (Hheap1 & (r & Hfile1) & Hfreed1).
    destruct (IH (compile_request req w))
      as (Hheap & (records & Hfile & Hlen) & (addrs & Hfreed & Hlen2 & Hall)).
    rewrite Hheap1 in Hheap, Hall. rewrite Hfile1 in Hfile.
    rewrite Hfreed1 in Hfreed.
    split; [exact Hheap|]. split.
    + exists (r :: records). rewrite Hfile, <- app_assoc.
      split; [reflexivity|]. cbn [length]. by rewrite Hlen.
    + exists (fresh (dom (heap w)) :: addrs). rewrite Hfreed, <- app_assoc.
      split; [reflexivity|]. split; [cbn [length]; by rewrite Hlen2|].
      constructor; [apply not_elem_of_dom, is_fresh|exact Hall].
Qed.

(** ** [finalizeAndCommitCollection] called again *)





(** ** The target OS set more than once *)

Lemma compileMethod_records_inputs {B} `{ICorJitCompiler B} comp info flags
    (w : World B) :
  exists r,
    hFile (snd (compileMethod comp info flags w)) = hFile w ++ [r]
    /\ r !! 1%nat = Some (RecCompileMethodIn info flags (currentOs w)).
Proof.
  rewrite compileMethod_run. cbn [snd hFile].
  eexists. split; [reflexivity|].
  unfold persisted_record, final_record.
  destruct (early_record _ _ _) as [r|] eqn:Hr.
  - apply early_record_prefix in Hr as (k & -> & _).
    unfold seed_context, seed_log. cbn [mc_log app]. reflexivity.
  - unfold seed_context, seed_log. cbn [mc_log app]. reflexivity.
Qed.

(** X4: the last [setTargetOS] wins.  After two calls the shim holds the
    second value, the JIT has received both values in the order given,
    nothing was recorded or written, and a compile call that follows
    records the second value. *)
Theorem setTargetOS_last_call_wins {B} `{ICorJitCompiler B}
    (os1 os2 : Z) (w : World B) comp info flags :
  let w2 := snd (setTargetOS os2 (snd (setTargetOS os1 w))) in
  currentOs w2 = os2
  /\ original_ICorJitCompiler w2
     = jit_setTargetOS os2 (jit_setTargetOS os1 (original_ICorJitCompiler w))
  /\ hFile w2 = hFile w /\ heap w2 = heap w /\ freed w2 = freed w
  /\ exists r,
       hFile (snd (compileMethod comp info flags w2)) = hFile w ++ [r]
       /\ r !! 1%nat = Some (RecCompileMethodIn info flags os2).
Proof.
  intros w2.
  assert (Hw2 : currentOs w2 = os2
                /\ original_ICorJitCompiler w2
                   = jit_setTargetOS os2
                       (jit_setTargetOS os1 (original_ICorJitCompiler w))
                /\ hFile w2 = hFile w /\ heap w2 = heap w
                /\ freed w2 = freed w)
    by (subst w2; by destruct w).
  destruct Hw2 as (Hos & Hb & Hfile & Hheap & Hfreed).
  clearbody w2.
  do 5 (split; [assumption|]).
  destruct (compileMethod_records_inputs comp info flags w2)
    as (r & Hr & Hin).
  rewrite Hfile in Hr. rewrite Hos in Hin. by exists r.
Qed.

(** ** What a compile call depends on and what it touches *)

(** X5: a compile call advances the JIT by exactly one [compileMethod]
    call, made with the caller's method descriptor and flags and with
    the answers of the caller's provider, and ends the way that call
    ends; it changes neither the target OS, nor the global context, nor
    the command line. *)
Theorem compileMethod_one_jit_call {B} `{ICorJitCompiler B}
    comp info flags (w : World B) :
  let jit := jit_compileMethod comp info flags (original_ICorJitCompiler w) in
  let w1 := snd (compileMethod comp info flags w) in
  original_ICorJitCompiler w1 = snd jit
  /\ fst (compileMethod comp info flags w) = outcome_of (jit_end (fst jit))
  /\ currentOs w1 = currentOs w
  /\ g_globalContext w1 = g_globalContext w
  /\ commandLine w1 = commandLine w.
Proof.
  intros jit w1. subst w1. rewrite compileMethod_run. by repeat split.
Qed.

(** X6: what a compile call returns, persists and leaves in the output
    slots depends on the command line, the global context, the target
    OS, the JIT and the arguments only.  Records already in the file,
    contexts of other calls, earlier deletions and the contents of the
    output slots on entry have no influence. *)
Theorem compileMethod_independent_of_history {B} `{ICorJitCompiler B}
    comp info flags (w w' : World B)
    (Hname : commandLine w = commandLine w')
    (Hg : g_globalContext w = g_globalContext w')
    (Hos : currentOs w = currentOs w')
    (Hjit : original_ICorJitCompiler w = original_ICorJitCompiler w') :
  let out := compileMethod comp info flags w in
  let out' := compileMethod comp info flags w' in
  fst out = fst out'
  /\ (exists r,
        hFile (snd out) = hFile w ++ [r]
        /\ hFile (snd out') = hFile w' ++ [r])
  /\ slot_nativeEntry (snd out) = slot_nativeEntry (snd out')
  /\ slot_nativeSizeOfCode (snd out) = slot_nativeSizeOfCode (snd out')
  /\ original_ICorJitCompiler (snd out)
     = original_ICorJitCompiler (snd out').
Proof.
  intros out out'. subst out out'. rewrite !compileMethod_run.
  rewrite Hname, Hg, Hos, Hjit. cbn [fst snd hFile slot_nativeEntry
    slot_nativeSizeOfCode original_ICorJitCompiler].
  split; [reflexivity|]. split; [by eexists|]. by repeat split.
Qed.

Lemma compileMethod_independent_of_history_witness :
  hFile live_world <> hFile saved_world
  /\ heap live_world <> heap saved_world
  /\ fst (compileMethod sample_provider sample_info 0 live_world)
     = fst (compileMethod sample_provider sample_info 0 saved_world)
  /\ slot_nativeEntry
       (snd (compileMethod sample_provider sample_info 0 live_world))
     = slot_nativeEntry
         (snd (compileMethod sample_provider sample_info 0 saved_world)).
Proof.
  split; [discriminate|]. split.
  - intros Heq. apply (f_equal (fun h => h !! 5%N)) in Heq.
    vm_compute in Heq. discriminate.
  - pose proof (compileMethod_independent_of_history sample_provider
                  sample_info 0 live_world saved_world eq_refl eq_refl
                  eq_refl eq_refl) as (Hout & _ & Hentry & _).
    split; [exact Hout | exact Hentry].
Defined.

(** ** The cleanup on a context that was not saved early *)

(** X7: when the flag of the live context is still false as the cleanup
    starts, the cleanup persists exactly one record, the log of the
    context followed by the result held in [compileParams] with the
    entry and the size found in the output slots at that moment, and
    then deletes the context; [compileParams] and the output slots are
    left as they were. *)
Theorem cleanup_finalizes_then_deletes {B} `{ICorJitCompiler B}
    mc comp p (w : World B) c
    (Hlive : heap w !! mc = Some c)
    (Hflag : mc_savedCollectionEarly c = false) :
  let our := {| original_ICorJitInfo := comp; m_mc := mc |} in
  let out := doCompile_finally mc our (p, w) in
  fst out = Normal tt
  /\ fst (snd out) = p
  /\ hFile (snd (snd out))
     = hFile w ++ [mc_log c
                   ++ finalize_entries (cp_result p) (slot_nativeEntry w)
                        (slot_nativeSizeOfCode w)]
  /\ heap (snd (snd out)) = delete mc (heap w)
  /\ freed (snd (snd out)) = freed w ++ [mc]
  /\ slot_nativeEntry (snd (snd out)) = slot_nativeEntry w
  /\ slot_nativeSizeOfCode (snd (snd out)) = slot_nativeSizeOfCode w.
Proof.
  intros our out. subst out our.
  destruct w as [name g os b f h fr e s]. cbn [heap] in Hlive.
  assert (Heq :
    doCompile_finally mc {| original_ICorJitInfo := comp; m_mc := mc |}
      (p, Build_World B name g os b f h fr e s)
    = (Normal tt,
       (p, Build_World B name g os b
             (f ++ [mc_log c ++ finalize_entries (cp_result p) e s])
             (delete mc h) (fr ++ [mc]) e s))).
  { rewrite <- (insert_delete_id h mc c Hlive) at 1.
    unfold doCompile_finally.
    unfold bind at 1. unfold in_world at 1. cbn [snd fst].
    rewrite SavedCollectionEarly_live. cbv beta iota. rewrite Hflag.
    cbn [negb]. unfold bind at 1. rewrite !bind_gets.
    cbn [snd fst slot_nativeEntry slot_nativeSizeOfCode].
    unfold in_world. cbn [snd fst].
    rewrite finalizeAndCommitCollection_live. cbv beta iota. cbn [snd fst].
    unfold delete_MethodContext, modify, set_freed, set_heap.
    cbn [fst snd hFile heap freed slot_nativeEntry slot_nativeSizeOfCode].
    by rewrite !delete_insert_eq, delete_delete_eq. }
  rewrite Heq. by repeat split.
Qed.

Lemma cleanup_finalizes_then_deletes_witness :
  heap live_world !! 5%N
  = Some {| mc_log := [RecProcessName "corerun app.dll"];
            mc_savedCollectionEarly := false |}
  /\ hFile (snd (snd (doCompile_finally 5%N saved_ICJI
                        (sample_params, live_world))))
     = [[RecProcessName "corerun app.dll";
         RecCompileMethodOut 4096 32 CORJIT_OK;
         RecAllocMemCapture; RecAllocGCInfoCapture]]
  /\ heap (snd (snd (doCompile_finally 5%N saved_ICJI
                       (sample_params, live_world)))) !! 5%N = None.
Proof.
  split; [reflexivity|].
  pose proof (cleanup_finalizes_then_deletes 5%N sample_provider
                sample_params live_world _ eq_refl eq_refl)
    as (_ & _ & Hfile & Hheap & _).
  split; [exact Hfile|]. unfold saved_ICJI. rewrite Hheap.
  apply lookup_delete_eq.
Defined.

(** ** A compile call the JIT fails explicitly *)

(** X8: when the JIT returns a result other than [CORJIT_OK] without
    storing any output and without an early save, the caller receives
    that result with a null entry and size 0, and the one record
    persisted ends with that result, the null entry and size 0, with no
    success-only capture after it. *)
Theorem compileMethod_explicit_failure {B} `{ICorJitCompiler B}
    comp info flags (w : World B) r
    (Hend : jit_end (fst (jit_compileMethod comp info flags
                            (original_ICorJitCompiler w))) = JitReturn r)
    (Hfail : r <> CORJIT_OK)
    (Hno_store :
       existsb is_store
         (jit_actions (fst (jit_compileMethod comp info flags
                              (original_ICorJitCompiler w)))) = false)
    (Hnot_early :
       existsb is_save_early
         (jit_actions (fst (jit_compileMethod comp info flags
                              (original_ICorJitCompiler w)))) = false) :
  let l := jit_actions (fst (jit_compileMethod comp info flags
                               (original_ICorJitCompiler w))) in
  let out := compileMethod comp info flags w in
  fst out = Normal r
  /\ slot_nativeEntry (snd out) = nullptr
  /\ slot_nativeSizeOfCode (snd out) = 0
  /\ hFile (snd out)
     = hFile w
       ++ [seed_log (commandLine w) comp info flags (currentOs w)
             (g_globalContext w)
           ++ run_queries comp l ++ [RecCompileMethodOut nullptr 0 r]].
Proof.
  intros l out. subst out. rewrite compileMethod_run. fold l.
  rewrite Hend. cbn [fst snd outcome_of hFile slot_nativeEntry
    slot_nativeSizeOfCode].
  rewrite entry_after_no_store, size_after_no_store by exact Hno_store.
  do 3 (split; [reflexivity|]).
  unfold persisted_record, final_record.
  apply (early_record_none comp l
           (seed_context (commandLine w) comp info flags (currentOs w)
              (g_globalContext w))) in Hnot_early.
  rewrite Hnot_early.
  rewrite entry_after_no_store, size_after_no_store by exact Hno_store.
  unfold finalize_entries, success_captures. cbn [result_slot].
  by destruct (decide (r = CORJIT_OK)).
Qed.

Lemma compileMethod_explicit_failure_witness :
  jit_end (fst (jit_compileMethod sample_provider sample_info 1
                  (original_ICorJitCompiler sample_world)))
  = JitReturn (CORJIT_enumerator 1)
  /\ fst (compileMethod sample_provider sample_info 1 sample_world)
     = Normal (CORJIT_enumerator 1)
  /\ slot_nativeEntry
       (snd (compileMethod sample_provider sample_info 1 sample_world)) = 0.
Proof.
  split; [reflexivity|].
  pose proof (compileMethod_explicit_failure sample_provider sample_info 1
                sample_world (CORJIT_enumerator 1) eq_refl
                ltac:(discriminate) eq_refl eq_refl)
    as (Hout & Hentry & _).
  split; [exact Hout | exact Hentry].
Defined.

(** ** Any series of calls on the shim *)

Lemma do_call_frame {B} `{ICorJitCompiler B} c (w : World B) :
  heap (do_call c w) = heap w
  /\ currentOs (do_call c w) = os_after [c] (currentOs w)
  /\ exists records,
       hFile (do_call c w) = hFile w ++ records
       /\ length records = (if is_compile_call c then 1 else 0)%nat.
Proof.
  destruct c as [os|comp info flags|info| |cpuCompileFlags];
    cbn [do_call os_after is_compile_call].
  - destruct w. cbn. split; [reflexivity|]. split; [reflexivity|].
    exists []. by rewrite app_nil_r.
  - rewrite compileMethod_run. cbn [snd heap currentOs hFile].
    split; [reflexivity|]. split; [reflexivity|]. by eexists [_].
  - destruct (on_backend_frame (jit_ProcessShutdownWork info) w)
      as (_ & _ & _ & _ & Hos & Hfile & Hheap & _).
    unfold ProcessShutdownWork. rewrite Hheap, Hos, Hfile.
    split; [reflexivity|]. split; [reflexivity|].
    exists []. by rewrite app_nil_r.
  - destruct (on_backend_frame jit_getVersionIdentifier w)
      as (_ & _ & _ & _ & Hos & Hfile & Hheap & _).
    unfold getVersionIdentifier. rewrite Hheap, Hos, Hfile.
    split; [reflexivity|]. split; [reflexivity|].
    exists []. by rewrite app_nil_r.
  - destruct (on_backend_frame
                (jit_getMaxIntrinsicSIMDVectorLength cpuCompileFlags) w)
      as (_ & _ & _ & _ & Hos & Hfile & Hheap & _).
    unfold getMaxIntrinsicSIMDVectorLength. rewrite Hheap, Hos, Hfile.
    split; [reflexivity|]. split; [reflexivity|].
    exists []. by rewrite app_nil_r.
Qed.

Lemma os_after_cons c cs os :
  os_after (c :: cs) os = os_after cs (os_after [c] os).
Proof. by destruct c. Qed.

(** X10: over any series of calls of the shim's members, in any order
    and however each call ends, the set of live contexts is unchanged,
    the output file keeps its records and gains exactly one per
    [compileMethod] call and none for any other member, and the target OS
    in force is the argument of the last [setTargetOS] of the series, or
    the earlier value if there is none. *)
Theorem run_calls_invariants {B} `{ICorJitCompiler B} (cs : list Call)
    (w : World B) :
  heap (run_calls cs w) = heap w
  /\ currentOs (run_calls cs w) = os_after cs (currentOs w)
  /\ exists records,
       hFile (run_calls cs w) = hFile w ++ records
       /\ length records = length (filter (fun c => is_compile_call c = true) cs).
Proof.
  unfold run_calls. revert w.
  induction cs as [|c cs IH]; intros w.
  - split; [reflexivity|]. split; [reflexivity|].
    exists []. by rewrite app_nil_r.
  - rewrite serve_cons, os_after_cons.
    destruct (do_call_frame c w) as (Hheap1 & Hos1 & records1 & Hfile1 & Hlen1).
    destruct (IH (do_call c w)) as (Hheap & Hos & records & Hfile & Hlen).
    rewrite Hheap1 in Hheap. rewrite Hos1 in Hos. rewrite Hfile1 in Hfile.
    split; [exact Hheap|]. split; [exact Hos|].
    exists (records1 ++ records). rewrite Hfile, <- app_assoc.
    split; [reflexivity|].
    rewrite length_app, Hlen1, Hlen.
    destruct (is_compile_call c) eqn:Hc.
    + by rewrite filter_cons_True.
    + rewrite filter_cons_False; [reflexivity|]. by rewrite Hc.
Qed.

(** A session on the sample JIT: OS 3, a compile that returns, a version
    query, OS 4, a compile that faults, shutdown. *)
Example run_calls_sample :
  let w1 := run_calls
              [CallSetTargetOS 3;
               CallCompileMethod sample_provider sample_info 0;
               CallGetVersionIdentifier;
               CallSetTargetOS 4;
               CallCompileMethod sample_provider sample_info 2;
               CallProcessShutdownWork 0]
              sample_world in
  map (fun rec => rec !! 1%nat) (hFile w1)
  = [Some (RecCompileMethodIn sample_info 0 3);
     Some (RecCompileMethodIn sample_info 2 4)]
  /\ heap w1 = ∅ /\ currentOs w1 = 4
  /\ original_ICorJitCompiler w1 = (4, 6%nat).
Proof. vm_compute. by repeat split. Qed.
